(** * Restaurant reservation API: a shallow embedding of the Lambda handler

    The handler of this repository routes API Gateway events to seven
    functions.  This development embeds the five that talk to the two
    DynamoDB tables ([handleGetTables], [handleCreateTable],
    [handleGetTableById], [handleGetReservations],
    [handleCreateReservation]) together with the pieces of JavaScript and
    of the DynamoDB DocumentClient they rely on, and states the
    properties of the reservation flow as theorems.

    Conventions of the embedding:
    - strings are byte strings (the UTF-8 encoding of the JavaScript
      string), which is also the order DynamoDB compares them in;
    - a JavaScript number is an exact decimal [m * 10^e], [NaN] or an
      infinity; rounding to a double is not modelled;
    - request fields and stored attributes are scalars (string, number,
      boolean, null): the handlers never build list, map or set
      attributes themselves;
    - an [async] function is a state transformer over the two tables
      that either returns or throws;
    - [JSON.stringify] produces the JSON document, not its text. *)

From Stdlib Require Import ZArith String Ascii List Bool Lia.
From stdpp Require Import base option list gmap strings.

Set Warnings "-register-all".

Local Open Scope string_scope.
Local Open Scope Z_scope.

(** ** JavaScript values *)

Module Js.

(** The number [mantissa * 10 ^ exponent]. *)
Record Decimal := mkDecimal { mantissa : Z; exponent : Z }.

Definition dec_of_Z (z : Z) : Decimal := mkDecimal z 0.

(** Both mantissas scaled to the smaller of the two exponents. *)
Definition dec_align (x y : Decimal) : Z * Z :=
  let k := Z.min (exponent x) (exponent y) in
  (mantissa x * 10 ^ (exponent x - k), mantissa y * 10 ^ (exponent y - k)).

Definition dec_eqb (x y : Decimal) : bool :=
  let '(a, b) := dec_align x y in a =? b.

Definition dec_leb (x y : Decimal) : bool :=
  let '(a, b) := dec_align x y in a <=? b.

Definition dec_is_zero (x : Decimal) : bool := mantissa x =? 0.

Definition dec_neg (x : Decimal) : Decimal :=
  mkDecimal (- mantissa x) (exponent x).

Inductive JsNumber :=
| NaN
| Infinity (negative : bool)
| Finite (d : Decimal).

(** A JSON scalar, which is also a scalar DynamoDB attribute value
    (types S, N, BOOL and NULL). *)
Inductive Scalar :=
| Str (s : string)
| Num (d : Decimal)
| Boolean (b : bool)
| Null.

Inductive JsValue :=
| JUndefined
| JNull
| JBool (b : bool)
| JNum (n : JsNumber)
| JStr (s : string).

(** The JavaScript value that [JSON.parse] or the DocumentClient makes of
    a scalar. *)
Definition of_scalar (a : Scalar) : JsValue :=
  match a with
  | Str s => JStr s
  | Num d => JNum (Finite d)
  | Boolean b => JBool b
  | Null => JNull
  end.

(** ToBoolean: what [!v] and [v || w] test. *)
Definition truthy (v : JsValue) : bool :=
  match v with
  | JUndefined | JNull => false
  | JBool b => b
  | JNum NaN => false
  | JNum (Infinity _) => true
  | JNum (Finite d) => negb (dec_is_zero d)
  | JStr s => negb (String.eqb s "")
  end.

(** [v || w] *)
Definition js_or (v w : JsValue) : JsValue := if truthy v then v else w.

(** [typeof v] *)
Definition typeof (v : JsValue) : string :=
  match v with
  | JUndefined => "undefined"
  | JNull => "object"
  | JBool _ => "boolean"
  | JNum _ => "number"
  | JStr _ => "string"
  end.

(** *** StringToNumber, the string case of [Number(v)] *)

Definition is_one_of (chars : string) (c : ascii) : bool :=
  existsb (Ascii.eqb c) (list_ascii_of_string chars).

Definition is_decimal_digit : ascii -> bool := is_one_of "0123456789".
Definition is_binary_digit : ascii -> bool := is_one_of "01".
Definition is_octal_digit : ascii -> bool := is_one_of "01234567".
Definition is_hex_digit : ascii -> bool := is_one_of "0123456789abcdefABCDEF".

Definition digit_value (c : ascii) : Z :=
  let n := Z.of_N (N_of_ascii c) in
  if is_decimal_digit c then n - 48
  else if is_one_of "abcdef" c then n - 87
  else n - 55.

Definition digits_value (radix : Z) (ds : list ascii) : Z :=
  fold_left (fun acc c => acc * radix + digit_value c) ds 0.

(** The UTF-8 encodings of StrWhiteSpaceChar: TAB, LF, VT, FF, CR, SP,
    U+00A0, U+1680, U+2000..U+200A, U+2028, U+2029, U+202F, U+205F,
    U+3000 and U+FEFF. *)
Definition white_space : list (list ascii) :=
  map list_ascii_of_string
    [ String "009" ""; String "010" ""; String "011" ""; String "012" "";
      String "013" ""; " ";
      String "194" (String "160" "");
      String "225" (String "154" (String "128" ""));
      String "226" (String "128" (String "128" ""));
      String "226" (String "128" (String "129" ""));
      String "226" (String "128" (String "130" ""));
      String "226" (String "128" (String "131" ""));
      String "226" (String "128" (String "132" ""));
      String "226" (String "128" (String "133" ""));
      String "226" (String "128" (String "134" ""));
      String "226" (String "128" (String "135" ""));
      String "226" (String "128" (String "136" ""));
      String "226" (String "128" (String "137" ""));
      String "226" (String "128" (String "138" ""));
      String "226" (String "128" (String "168" ""));
      String "226" (String "128" (String "169" ""));
      String "226" (String "128" (String "175" ""));
      String "226" (String "129" (String "159" ""));
      String "227" (String "128" (String "128" ""));
      String "239" (String "187" (String "191" "")) ].

(** [strip_prefix w l] is the rest of [l] after its prefix [w]. *)
Fixpoint strip_prefix (w l : list ascii) : option (list ascii) :=
  match w, l with
  | [], _ => Some l
  | _ :: _, [] => None
  | a :: w', b :: l' => if Ascii.eqb a b then strip_prefix w' l' else None
  end.

Fixpoint strip_any (ws : list (list ascii)) (l : list ascii)
  : option (list ascii) :=
  match ws with
  | [] => None
  | w :: ws' =>
      match strip_prefix w l with
      | Some r => Some r
      | None => strip_any ws' l
      end
  end.

Fixpoint skip_while (ws : list (list ascii)) (fuel : nat) (l : list ascii)
  : list ascii :=
  match fuel with
  | O => l
  | S fuel' =>
      match strip_any ws l with
      | Some r => skip_while ws fuel' r
      | None => l
      end
  end.

Definition trim (l : list ascii) : list ascii :=
  let l1 := skip_while white_space (length l) l in
  rev (skip_while (map (@rev ascii) white_space) (length l1) (rev l1)).

(** The longest prefix of [l] whose characters satisfy [p], and the rest. *)
Fixpoint span (p : ascii -> bool) (l : list ascii) : list ascii * list ascii :=
  match l with
  | [] => ([], [])
  | c :: r =>
      if p c then let '(a, b) := span p r in (c :: a, b) else ([], l)
  end.

Definition nonempty_all (p : ascii -> bool) (l : list ascii) : bool :=
  match l with
  | [] => false
  | _ => forallb p l
  end.

(** ExponentPart_opt at the end of the literal: its value, when [l] is
    empty or a well-formed exponent. *)
Definition ExponentPart (l : list ascii) : option Z :=
  match l with
  | [] => Some 0
  | c :: r =>
      if is_one_of "eE" c then
        let '(sign, ds) :=
          match r with
          | "+"%char :: r' => (1, r')
          | "-"%char :: r' => (-1, r')
          | _ => (1, r)
          end in
        if nonempty_all is_decimal_digit ds
        then Some (sign * digits_value 10 ds) else None
      else None
  end.

(** The value of the digits [int], the digits [frac] after the point and
    the exponent [rest]; one of [int] and [frac] has a digit. *)
Definition decimal_literal (int frac rest : list ascii) : option JsNumber :=
  match int, frac with
  | [], [] => None
  | _, _ =>
      match ExponentPart rest with
      | Some e =>
          Some (Finite (mkDecimal (digits_value 10 (int ++ frac))
                                  (e - Z.of_nat (length frac))))
      | None => None
      end
  end.

Definition StrUnsignedDecimalLiteral (l : list ascii) : option JsNumber :=
  if decide (l = list_ascii_of_string "Infinity") then Some (Infinity false)
  else
    let '(int, r1) := span is_decimal_digit l in
    match r1 with
    | "."%char :: r =>
        let '(frac, r2) := span is_decimal_digit r in
        decimal_literal int frac r2
    | _ => decimal_literal int [] r1
    end.

Definition negate (n : JsNumber) : JsNumber :=
  match n with
  | NaN => NaN
  | Infinity s => Infinity (negb s)
  | Finite d => Finite (dec_neg d)
  end.

Definition StrDecimalLiteral (l : list ascii) : option JsNumber :=
  match l with
  | "+"%char :: r => StrUnsignedDecimalLiteral r
  | "-"%char :: r => negate <$> StrUnsignedDecimalLiteral r
  | _ => StrUnsignedDecimalLiteral l
  end.

Definition NonDecimalIntegerLiteral (l : list ascii) : option JsNumber :=
  match l with
  | "0"%char :: c :: ds =>
      if is_one_of "bB" c then
        if nonempty_all is_binary_digit ds
        then Some (Finite (dec_of_Z (digits_value 2 ds))) else None
      else if is_one_of "oO" c then
        if nonempty_all is_octal_digit ds
        then Some (Finite (dec_of_Z (digits_value 8 ds))) else None
      else if is_one_of "xX" c then
        if nonempty_all is_hex_digit ds
        then Some (Finite (dec_of_Z (digits_value 16 ds))) else None
      else None
  | _ => None
  end.

Definition StrNumericLiteral (l : list ascii) : option JsNumber :=
  match NonDecimalIntegerLiteral l with
  | Some n => Some n
  | None => StrDecimalLiteral l
  end.

Definition StringToNumber (s : string) : JsNumber :=
  match trim (list_ascii_of_string s) with
  | [] => Finite (dec_of_Z 0)
  | l => default NaN (StrNumericLiteral l)
  end.


(** [Number(v)] *)
Definition Number (v : JsValue) : JsNumber :=
  match v with
  | JUndefined => NaN
  | JNull => Finite (dec_of_Z 0)
  | JBool b => Finite (dec_of_Z (if b then 1 else 0))
  | JNum n => n
  | JStr s => StringToNumber s
  end.


(** *** JSON.stringify *)

(** A JavaScript value as the handlers build them for a response:
    primitives, arrays and object literals (properties in source order). *)
Inductive JsTree :=
| Prim (v : JsValue)
| Array (elements : list JsTree)
| Object (properties : list (string * JsTree)).

(** A JSON document. *)
Inductive Json :=
| Leaf (a : Scalar)
| Arr (elements : list Json)
| Obj (members : list (string * Json)).

(** SerializeJSONProperty on a primitive: [undefined] has no
    serialization, a number that is not finite becomes [null]. *)
Definition stringify_prim (v : JsValue) : option Scalar :=
  match v with
  | JUndefined => None
  | JNull => Some Null
  | JBool b => Some (Boolean b)
  | JNum (Finite d) => Some (Num d)
  | JNum _ => Some Null
  | JStr s => Some (Str s)
  end.

(** [JSON.stringify(t)]: [None] is [undefined].  A property without a
    serialization is left out of its object, an array element without
    one is written [null]. *)
Fixpoint JSON_stringify (t : JsTree) : option Json :=
  match t with
  | Prim v => Leaf <$> stringify_prim v
  | Array l => Some (Arr (map (fun e => default (Leaf Null) (JSON_stringify e)) l))
  | Object ps =>
      Some (Obj ((fix members (ps : list (string * JsTree)) :=
                    match ps with
                    | [] => []
                    | (k, e) :: ps' =>
                        match JSON_stringify e with
                        | Some j => (k, j) :: members ps'
                        | None => members ps'
                        end
                    end) ps))
  end.

(** The value of member [k] of a JSON object. *)
Fixpoint member (k : string) (ms : list (string * Json)) : option Json :=
  match ms with
  | [] => None
  | (k', j) :: ms' => if String.eqb k k' then Some j else member k ms'
  end.

(** The value of member [k] of a JSON document, if it is an object that
    has it. *)
Definition json_member (k : string) (j : Json) : option Json :=
  match j with
  | Obj ms => member k ms
  | _ => None
  end.

End Js.

(** ** The DynamoDB DocumentClient *)

Module Dynamo.
Import Js.

(** An item: attribute name to attribute value. *)
Abbreviation Item := (gmap string Scalar).

(** The two tables the handler is configured with
    ([process.env.tables_table], [process.env.reservations_table]). *)
Inductive DynamoTable := TABLES_TABLE | RESERVATIONS_TABLE.

(** Both tables are keyed by the string attribute [id]. *)
Record Database := mkDatabase {
  tables : gmap string Item;
  reservations : gmap string Item
}.

Definition contents (t : DynamoTable) (db : Database) : gmap string Item :=
  match t with
  | TABLES_TABLE => tables db
  | RESERVATIONS_TABLE => reservations db
  end.

Definition with_contents (t : DynamoTable) (m : gmap string Item)
    (db : Database) : Database :=
  match t with
  | TABLES_TABLE => mkDatabase m (reservations db)
  | RESERVATIONS_TABLE => mkDatabase (tables db) m
  end.

(** *** Marshalling *)

(** What the DocumentClient sends for a JavaScript value: nothing for
    [undefined] ([Some None]), an attribute value for a scalar; a number
    that is not finite is sent as is and rejected by the service
    ([None]). *)
Definition marshal (v : JsValue) : option (option Scalar) :=
  match v with
  | JUndefined => Some None
  | JNull => Some (Some Null)
  | JBool b => Some (Some (Boolean b))
  | JNum (Finite d) => Some (Some (Num d))
  | JNum _ => None
  | JStr s => Some (Some (Str s))
  end.

(** An object literal as a map of attribute values; a later property
    overrides an earlier one of the same name. *)
Fixpoint marshal_onto (acc : Item) (o : list (string * JsValue))
  : option Item :=
  match o with
  | [] => Some acc
  | (k, v) :: o' =>
      match marshal v with
      | Some (Some a) => marshal_onto (<[k := a]> acc) o'
      | Some None => marshal_onto acc o'
      | None => None
      end
  end.

Definition marshal_map (o : list (string * JsValue)) : option Item :=
  marshal_onto ∅ o.


(** [item.name] on an item that a read returned. *)
Definition attribute (item : Item) (name : string) : JsValue :=
  from_option of_scalar JUndefined (item !! name).

(** *** Comparisons *)

(** [=]: operands of different types are never equal. *)
Definition attr_eqb (x y : Scalar) : bool :=
  match x, y with
  | Str a, Str b => String.eqb a b
  | Num a, Num b => dec_eqb a b
  | Boolean a, Boolean b => Bool.eqb a b
  | Null, Null => true
  | _, _ => false
  end.

(** [<=]: strings in byte order, numbers by value; nothing else is
    ordered. *)
Definition attr_leb (x y : Scalar) : bool :=
  match x, y with
  | Str a, Str b => String.leb a b
  | Num a, Num b => dec_leb a b
  | _, _ => false
  end.

(** *** Condition expressions *)

Inductive Operand :=
| Attr (name : string)          (** [name] *)
| Name (placeholder : string)   (** [#placeholder] *)
| Val (placeholder : string).   (** [:placeholder] *)

Inductive Condition :=
| Eq (a b : Operand)                  (** [a = b] *)
| Between (x lo hi : Operand)         (** [x BETWEEN lo AND hi] *)
| And (c1 c2 : Condition)             (** [c1 AND c2] *)
| Or (c1 c2 : Condition).             (** [c1 OR c2] *)

Section Expression.
Variable names : gmap string string.   (** ExpressionAttributeNames *)
Variable values : Item.                (** ExpressionAttributeValues *)

(** Every placeholder of the expression is defined. *)
Definition operand_defined (o : Operand) : bool :=
  match o with
  | Attr _ => true
  | Name p => bool_decide (is_Some (names !! p))
  | Val p => bool_decide (is_Some (values !! p))
  end.

Fixpoint defined (c : Condition) : bool :=
  match c with
  | Eq a b => operand_defined a && operand_defined b
  | Between x lo hi =>
      operand_defined x && operand_defined lo && operand_defined hi
  | And c1 c2 | Or c1 c2 => defined c1 && defined c2
  end.

(** The value of an operand on an item, if the item has the
    attribute. *)
Definition operand (item : Item) (o : Operand) : option Scalar :=
  match o with
  | Attr n => item !! n
  | Name p => n ← names !! p; item !! n
  | Val p => values !! p
  end.

(** A comparison with an absent attribute is false. *)
Fixpoint holds (item : Item) (c : Condition) : bool :=
  match c with
  | Eq a b =>
      match operand item a, operand item b with
      | Some x, Some y => attr_eqb x y
      | _, _ => false
      end
  | Between x lo hi =>
      match operand item x, operand item lo, operand item hi with
      | Some v, Some l, Some h => attr_leb l v && attr_leb v h
      | _, _, _ => false
      end
  | And c1 c2 => holds item c1 && holds item c2
  | Or c1 c2 => holds item c1 || holds item c2
  end.
End Expression.

(** *** Requests *)

Record ScanInput := mkScan {
  TableName : DynamoTable;
  FilterExpression : option Condition;
  ExpressionAttributeNames : gmap string string;
  ExpressionAttributeValues : list (string * JsValue)
}.

(** The items of a table, in the order a scan yields them. *)
Definition items_of (t : DynamoTable) (db : Database) : list Item :=
  (map_to_list (contents t db)).*2.

(** The items a scan returns; [None] when the service rejects the
    request.  The whole table is read in one page. *)
Definition scan_items (input : ScanInput) (db : Database)
  : option (list Item) :=
  let all := items_of (TableName input) db in
  match FilterExpression input with
  | None => Some all
  | Some c =>
      match marshal_map (ExpressionAttributeValues input) with
      | Some values =>
          let names := ExpressionAttributeNames input in
          if defined names values c
          then Some (List.filter (fun item => holds names values item c) all)
          else None
      | None => None
      end
  end.

(** The key of an item to write: its string attribute [id]. *)
Definition key_of (item : Item) : option string :=
  match item !! "id" with
  | Some (Str k) => Some k
  | _ => None
  end.

(** The table after [put]: the item replaces the one stored under its
    key, if any; [None] when the service rejects the item. *)
Definition put_item (t : DynamoTable) (o : list (string * JsValue))
    (db : Database) : option (Item * Database) :=
  item ← marshal_map o;
  k ← key_of item;
  Some (item, with_contents t (<[k := item]> (contents t db)) db).

(** The item stored under a key; the outer [None] when the service
    rejects the key. *)
Definition get_item (t : DynamoTable) (key : JsValue) (db : Database)
  : option (option Item) :=
  match key with
  | JStr k => Some (contents t db !! k)
  | _ => None
  end.

End Dynamo.

(** ** The handler *)

Module Api.
Import Js Dynamo.

(** *** Asynchronous functions *)

Inductive Exn :=
| SyntaxError     (** [JSON.parse] of a text that is not JSON *)
| TypeError       (** destructuring [null] *)
| ServiceError.   (** a DynamoDB request that was rejected or not served *)

Inductive Outcome (A : Type) :=
| Returned (a : A)
| Thrown (e : Exn).
Arguments Returned {A} a.
Arguments Thrown {A} e.

(** A successful write: the table and the item as stored. *)
Definition Write : Type := DynamoTable * Item.

(** The end of a run: how it ended, the database it left, the writes it
    made. *)
Record Completion (A : Type) := mkCompletion {
  outcome : Outcome A;
  database : Database;
  writes : list Write
}.
Arguments mkCompletion {A} outcome database writes.
Arguments outcome {A} c.
Arguments database {A} c.
Arguments writes {A} c.

Definition Async (A : Type) : Type := Database -> Completion A.

Definition ret {A} (a : A) : Async A :=
  fun db => mkCompletion (Returned a) db [].

Definition throw {A} (e : Exn) : Async A :=
  fun db => mkCompletion (Thrown e) db [].

Definition bind {A B} (m : Async A) (k : A -> Async B) : Async B :=
  fun db =>
    let r := m db in
    match outcome r with
    | Returned a =>
        let r' := k a (database r) in
        mkCompletion (outcome r') (database r') (writes r ++ writes r')
    | Thrown e => mkCompletion (Thrown e) (database r) (writes r)
    end.

(** [try { m } catch (error) { h error }] *)
Definition try_catch {A} (m : Async A) (h : Exn -> Async A) : Async A :=
  fun db =>
    let r := m db in
    match outcome r with
    | Returned a => r
    | Thrown e =>
        let r' := h e (database r) in
        mkCompletion (outcome r') (database r') (writes r ++ writes r')
    end.

Notation "'let*' x ':=' m 'in' k" := (bind m (fun x => k))
  (at level 10, x pattern, m at level 100, k at level 200).

(** *** One invocation of the Lambda function *)

Inductive Request :=
| ScanRequest (t : DynamoTable)
| GetRequest (t : DynamoTable)
| PutRequest (t : DynamoTable).

(** What an invocation gets from outside the program: the identifier
    [uuidv4()] draws, the clock, and which DynamoDB requests are not
    served. *)
Record Invocation := mkInvocation {
  uuid : string;                  (** [uuidv4()] *)
  now : string;                   (** [new Date().toISOString()] *)
  unavailable : Request -> bool
}.




(** *** Events and responses *)

(** What [JSON.parse(event.body)] makes of the body: a text that is not
    JSON throws; a request without a body has [event.body] null, which
    parses to [null].  Of a document the handlers only read top-level
    properties: there are none on a document that is not an object, and
    reading one from [null] throws. *)
Inductive Body :=
| NotJson
| JsonNull
| JsonObject (properties : gmap string Scalar)
| JsonOther.

Record Event := mkEvent {
  (** [event.requestContext?.authorizer?.claims?.['cognito:username']] *)
  cognito_username : option string;
  body : Body;
  queryStringParameters : option (gmap string string);
  pathParameters : option (gmap string string)
}.

Record Response := mkResponse {
  statusCode : Z;
  headers : list (string * string);
  response_body : option Json     (** [body]; [None] is [undefined] *)
}.

Definition corsHeaders : list (string * string) :=
  [ ("Access-Control-Allow-Origin", "*");
    ("Access-Control-Allow-Headers", "Content-Type, Authorization");
    ("Access-Control-Allow-Methods", "OPTIONS, POST, GET");
    ("Content-Type", "application/json") ].

Definition formatResponse (statusCode : Z) (body : JsTree) : Response :=
  mkResponse statusCode corsHeaders (JSON_stringify body).

Definition getUsernameFromToken (event : Event) : JsValue :=
  js_or (from_option JStr JUndefined (cognito_username event)) JNull.

Definition JSON_parse (b : Body) : Async Body :=
  match b with
  | NotJson => throw SyntaxError
  | _ => ret b
  end.

(** [parsed.name] *)
Definition property (ps : gmap string Scalar) (name : string) : JsValue :=
  from_option of_scalar JUndefined (ps !! name).

(** [const { ... } = parsed]: the function that reads a property. *)
Definition destructure (parsed : Body) : Async (string -> JsValue) :=
  match parsed with
  | NotJson => throw SyntaxError
  | JsonNull => throw TypeError
  | JsonObject ps => ret (property ps)
  | JsonOther => ret (fun _ => JUndefined)
  end.

(** A string-valued object literal property. *)
Definition str (s : string) : JsTree := Prim (JStr s).

(** The bodies of the responses that only carry a message. *)
Definition message (text : string) : JsTree := Object [("message", str text)].

Definition zero : JsValue := JNum (Finite (dec_of_Z 0)).

(** The scan that resolves a table number:
    [#num = :tableNumber] with [#num] standing for [number]. *)
Definition table_query (tableNumber : JsValue) : ScanInput :=
  mkScan TABLES_TABLE
    (Some (Eq (Name "#num") (Val ":tableNumber")))
    {[ "#num" := "number" ]}
    [(":tableNumber", tableNumber)].

(** [tableId = :tableId AND #date = :date AND (#time BETWEEN :start AND
    :end OR :start BETWEEN #time AND slotTimeEnd)] *)
Definition conflict_filter : Condition :=
  And (And (Eq (Attr "tableId") (Val ":tableId"))
           (Eq (Name "#date") (Val ":date")))
      (Or (Between (Name "#time") (Val ":start") (Val ":end"))
          (Between (Val ":start") (Name "#time") (Attr "slotTimeEnd"))).

(** The scan for the reservations that conflict with a request. *)
Definition conflict_query (tableId date slotTimeStart slotTimeEnd : JsValue)
  : ScanInput :=
  mkScan RESERVATIONS_TABLE
    (Some conflict_filter)
    {[ "#date" := "date"; "#time" := "time" ]}
    [ (":tableId", tableId); (":date", date);
      (":start", slotTimeStart); (":end", slotTimeEnd) ].

Section Handlers.
(** Number::toString on a finite number, which the embedding leaves
    open. *)
Variable Number_toString : Decimal -> string.
Variable inv : Invocation.

(** [String(v)] *)
Definition ToString (v : JsValue) : string :=
  match v with
  | JUndefined => "undefined"
  | JNull => "null"
  | JBool b => if b then "true" else "false"
  | JNum NaN => "NaN"
  | JNum (Infinity negative) => if negative then "-Infinity" else "Infinity"
  | JNum (Finite d) => Number_toString d
  | JStr s => s
  end.

(** [await dynamodb.scan(input).promise()], its [Items]. *)
Definition scan (input : ScanInput) : Async (list Item) :=
  fun db =>
    if unavailable inv (ScanRequest (TableName input))
    then throw ServiceError db
    else match scan_items input db with
         | Some items => ret items db
         | None => throw ServiceError db
         end.

(** [await dynamodb.put({ TableName, Item }).promise()] *)
Definition put (t : DynamoTable) (item : list (string * JsValue))
  : Async unit :=
  fun db =>
    if unavailable inv (PutRequest t)
    then throw ServiceError db
    else match put_item t item db with
         | Some (stored, db') => mkCompletion (Returned tt) db' [(t, stored)]
         | None => throw ServiceError db
         end.

(** [await dynamodb.get({ TableName, Key: { id } }).promise()], its
    [Item]. *)
Definition get (t : DynamoTable) (id : JsValue) : Async (option Item) :=
  fun db =>
    if unavailable inv (GetRequest t)
    then throw ServiceError db
    else match get_item t id db with
         | Some found => ret found db
         | None => throw ServiceError db
         end.

(** The table as [handleGetTables] and [handleGetTableById] show it. *)
Definition table_view (item : Item) : JsTree :=
  Object [ ("id", Prim (JNum (Number (attribute item "id"))));
           ("number", Prim (attribute item "number"));
           ("places", Prim (attribute item "places"));
           ("isVip", Prim (attribute item "isVip"));
           ("minOrder", Prim (js_or (attribute item "minOrder") zero)) ].

Definition handleGetTables (event : Event) : Async Response :=
  let username := getUsernameFromToken event in
  if negb (truthy username) then ret (formatResponse 401 (message "Unauthorized"))
  else
    try_catch
      (let* items := scan (mkScan TABLES_TABLE None ∅ []) in
       let tables := map table_view items in
       ret (formatResponse 200 (Object [("tables", Array tables)])))
      (fun error => ret (formatResponse 500 (message "Internal Server Error"))).

Definition handleCreateTable (event : Event) : Async Response :=
  let username := getUsernameFromToken event in
  if negb (truthy username) then ret (formatResponse 401 (message "Unauthorized"))
  else
    let* parsed := JSON_parse (body event) in
    let* table := destructure parsed in
    let number := table "number" in
    let places := table "places" in
    let isVip := table "isVip" in
    let minOrder := table "minOrder" in
    if negb (String.eqb (typeof number) "number")
       || negb (String.eqb (typeof places) "number")
       || negb (String.eqb (typeof isVip) "boolean")
    then ret (formatResponse 400 (message "Invalid table data."))
    else
      let tableId := js_or (table "id") (JStr (uuid inv)) in
      let tableData :=
        [ ("id", JStr (ToString tableId)); ("number", number);
          ("places", places); ("isVip", isVip);
          ("minOrder", js_or minOrder zero) ] in
      try_catch
        (let* _ := put TABLES_TABLE tableData in
         ret (formatResponse 200 (Object [("id", Prim tableId)])))
        (fun error => ret (formatResponse 500 (message "Internal Server Error"))).

Definition handleGetTableById (event : Event) : Async Response :=
  let username := getUsernameFromToken event in
  if negb (truthy username) then ret (formatResponse 401 (message "Unauthorized"))
  else
    let tableId :=
      from_option JStr JUndefined
        (params ← pathParameters event; params !! "tableId") in
    try_catch
      (let* result := get TABLES_TABLE tableId in
       match result with
       | None => ret (formatResponse 404 (message "Table not found"))
       | Some item => ret (formatResponse 200 (table_view item))
       end)
      (fun error => ret (formatResponse 500 (message "Internal Server Error"))).

(** The reservation as [handleGetReservations] shows it. *)
Definition reservation_view (item : Item) : JsTree :=
  Object [ ("tableNumber", Prim (attribute item "tableNumber"));
           ("clientName", Prim (attribute item "clientName"));
           ("phoneNumber", Prim (attribute item "phoneNumber"));
           ("date", Prim (attribute item "date"));
           ("slotTimeStart", Prim (attribute item "time"));
           ("slotTimeEnd", Prim (attribute item "slotTimeEnd")) ].

Definition handleGetReservations (event : Event) : Async Response :=
  let username := getUsernameFromToken event in
  if negb (truthy username) then ret (formatResponse 401 (message "Unauthorized"))
  else
    let queryParams := default ∅ (queryStringParameters event) in
    let user := from_option JStr JUndefined (queryParams !! "user") in
    let params :=
      if truthy user
      then mkScan RESERVATIONS_TABLE
             (Some (Eq (Attr "username") (Val ":username")))
             ∅ [(":username", user)]
      else mkScan RESERVATIONS_TABLE None ∅ [] in
    try_catch
      (let* items := scan params in
       let reservations := map reservation_view items in
       ret (formatResponse 200 (Object [("reservations", Array reservations)])))
      (fun error => ret (formatResponse 500 (message "Internal Server Error"))).

(** The reservation object that [handleCreateReservation] builds. *)
Definition new_reservation (table : Item)
    (username clientName phoneNumber date slotTimeStart slotTimeEnd : JsValue)
  : list (string * JsValue) :=
  [ ("id", JStr (uuid inv)); ("tableId", attribute table "id");
    ("tableNumber", attribute table "number");
    ("clientName", clientName); ("phoneNumber", phoneNumber);
    ("username", username); ("date", date);
    ("time", slotTimeStart); ("slotTimeEnd", slotTimeEnd);
    ("createdAt", JStr (now inv)) ].

Definition handleCreateReservation (event : Event) : Async Response :=
  let username := getUsernameFromToken event in
  if negb (truthy username) then ret (formatResponse 401 (message "Unauthorized"))
  else
    let* parsed := JSON_parse (body event) in
    let* field := destructure parsed in
    let tableNumber := field "tableNumber" in
    let clientName := field "clientName" in
    let phoneNumber := field "phoneNumber" in
    let date := field "date" in
    let slotTimeStart := field "slotTimeStart" in
    let slotTimeEnd := field "slotTimeEnd" in
    if negb (truthy tableNumber) || negb (truthy date)
       || negb (truthy slotTimeStart) || negb (truthy slotTimeEnd)
    then ret (formatResponse 400 (message "Missing required fields."))
    else
      try_catch
        (let* tableResult := scan (table_query tableNumber) in
         match tableResult with
         | [] => ret (formatResponse 400 (message "Table not found"))
         | table :: _ =>
             let tableId := attribute table "id" in
             let* existingReservations :=
               scan (conflict_query tableId date slotTimeStart slotTimeEnd) in
             if (0 <? length existingReservations)%nat
             then ret (formatResponse 400
                         (message "Table already reserved for the selected time."))
             else
               let reservation :=
                 new_reservation table username clientName phoneNumber
                   date slotTimeStart slotTimeEnd in
               let* _ := put RESERVATIONS_TABLE reservation in
               ret (formatResponse 200
                      (Object [ ("reservationId", str (uuid inv));
                                ("message", str "Reservation created successfully.") ]))
         end)
        (fun error => ret (formatResponse 500 (message "Internal Server Error"))).
End Handlers.

End Api.

(** ** The specification's vocabulary *)

Module Spec.
Import Js Dynamo Api.

(** The error kinds of the specification, as the responses that carry
    them. *)
Definition Unauthorized : Response :=
  formatResponse 401 (message "Unauthorized").
Definition ValidationError : Response :=
  formatResponse 400 (message "Missing required fields.").
Definition TableNotFound : Response :=
  formatResponse 400 (message "Table not found").
Definition SlotConflict : Response :=
  formatResponse 400 (message "Table already reserved for the selected time.").
Definition StoreUnavailable : Response :=
  formatResponse 500 (message "Internal Server Error").

(** The response to a reservation that was created. *)
Definition Created (reservationId : string) : Response :=
  formatResponse 200
    (Object [ ("reservationId", str reservationId);
              ("message", str "Reservation created successfully.") ]).

(** The request carries an identity. *)
Definition authenticated (event : Event) : Prop :=
  truthy (getUsernameFromToken event) = true.

(** The properties that can be read from the body, when destructuring it
    does not throw. *)
Definition fields (b : Body) : option (string -> JsValue) :=
  match b with
  | NotJson | JsonNull => None
  | JsonObject ps => Some (property ps)
  | JsonOther => Some (fun _ => JUndefined)
  end.

Definition required : list string :=
  ["tableNumber"; "date"; "slotTimeStart"; "slotTimeEnd"].

(** Missing, or the empty string. *)
Definition missing_or_empty (v : JsValue) : bool :=
  match v with
  | JUndefined => true
  | JStr s => String.eqb s ""
  | _ => false
  end.



(** The run that ends with [StoreUnavailable] and changes nothing. *)
Definition failed (db : Database) : Completion Response :=
  mkCompletion (Returned StoreUnavailable) db [].



(** The start of one slot lies within the span of the other:
    [a <= c <= b] or [c <= a <= d]. *)
Definition slot_conflict (a b c d : string) : bool :=
  (String.leb a c && String.leb c b) || (String.leb c a && String.leb a d).

(** The two slots share a time. *)
Definition intersecting (a b c d : string) : bool :=
  String.ltb a d && String.ltb c b.









(** The entry of a reservation in the listing, in the words of the
    specification: six members, each present when the stored record has
    the attribute it is taken from. *)
Definition projection (r : Item) : Json :=
  Obj (omap (fun '(name, source) => a ← r !! source; Some (name, Leaf a))
         [ ("tableNumber", "tableNumber"); ("clientName", "clientName");
           ("phoneNumber", "phoneNumber"); ("date", "date");
           ("slotTimeStart", "time"); ("slotTimeEnd", "slotTimeEnd") ]).


(** The JSON document of a table in a response. *)
Definition table_json (table : Item) : Json :=
  default (Leaf Null) (JSON_stringify (table_view table)).



End Spec.

(** ** A restaurant with one table *)

Module Scenario.
Import Js Dynamo Api Spec.

Definition always_available : Request -> bool := fun _ => false.

Definition first_invocation : Invocation :=
  mkInvocation "110e8400-e29b-41d4-a716-446655440000"
    "2024-05-30T12:00:00.000Z" always_available.


Definition five : Scalar := Num (dec_of_Z 5).

(** Table number 5, stored under the identifier T1. *)
Definition T1 : Item :=
  {[ "id" := Str "T1"; "number" := five; "places" := Num (dec_of_Z 4);
     "isVip" := Boolean false; "minOrder" := Num (dec_of_Z 0) ]}.

Definition one_table : Database := mkDatabase {[ "T1" := T1 ]} ∅.

(** What bob sends to book table 5 on 1 June 2024. *)
Definition booking_body (slotTimeStart slotTimeEnd : string)
  : gmap string Scalar :=
  {[ "tableNumber" := five; "date" := Str "2024-06-01";
     "slotTimeStart" := Str slotTimeStart; "slotTimeEnd" := Str slotTimeEnd;
     "clientName" := Str "Bob"; "phoneNumber" := Str "555-0100" ]}.


(** The reservation that [first_invocation] stores for such a booking. *)
Definition reserved (slotTimeStart slotTimeEnd : string) : Item :=
  {[ "id" := Str (uuid first_invocation); "tableId" := Str "T1";
     "tableNumber" := five; "clientName" := Str "Bob";
     "phoneNumber" := Str "555-0100"; "username" := Str "bob";
     "date" := Str "2024-06-01"; "time" := Str slotTimeStart;
     "slotTimeEnd" := Str slotTimeEnd;
     "createdAt" := Str (now first_invocation) ]}.





(** A booking without a date. *)
Definition undated_body : gmap string Scalar :=
  delete "date" (booking_body "18:00" "19:00").

(** A request without a body, from bob. *)
Definition empty_request : Event := mkEvent (Some "bob") JsonNull None None.

(** A request from nobody. *)
Definition anonymous_request : Event :=
  mkEvent None (JsonObject (booking_body "18:00" "19:00")) None None.


(** [GET /tables/T1] *)
Definition get_T1 : Event :=
  mkEvent (Some "alice") JsonNull None (Some {[ "tableId" := "T1" ]}).

(** The body that creates table 7 without an identifier. *)
Definition new_table_body : gmap string Scalar :=
  {[ "number" := Num (dec_of_Z 7); "places" := Num (dec_of_Z 2);
     "isVip" := Boolean true ]}.


End Scenario.


(** ** Regular expressions *)

Module Regex.
Import Js.

(** An item of a character class. *)
Inductive ClassItem :=
| Single (c : ascii)            (** the character itself *)
| Range (first last : ascii)    (** [first-last] *)
| Word                          (** [\w] *)
| Digit.                        (** [\d] *)

Definition in_range (first last c : ascii) : bool :=
  (N_of_ascii first <=? N_of_ascii c)%N && (N_of_ascii c <=? N_of_ascii last)%N.

Definition item_has (i : ClassItem) (c : ascii) : bool :=
  match i with
  | Single x => Ascii.eqb c x
  | Range first last => in_range first last c
  | Word =>
      in_range "a" "z" c || in_range "A" "Z" c || in_range "0" "9" c
      || Ascii.eqb c "_"
  | Digit => in_range "0" "9" c
  end.

Definition in_class (items : list ClassItem) (c : ascii) : bool :=
  existsb (fun i => item_has i c) items.

(** [.] matches any character but a line terminator.  Of the four line
    terminators the embedding knows the two of one byte, LF and CR. *)
Definition not_line_terminator (c : ascii) : bool :=
  negb (Ascii.eqb c "010" || Ascii.eqb c "013").

Inductive Pattern :=
| Class (items : list ClassItem)   (** [[items]] *)
| Char (c : ascii)                 (** a literal character *)
| Dot                              (** [.] *)
| Seq (p q : Pattern)              (** [pq] *)
| Star (p : Pattern)               (** [p*] *)
| Lookahead (p : Pattern)          (** [(?=p)] *)
| Eos.                             (** [$], without the [m] flag *)

(** [p{n,}]; [p+] is [p{1,}]. *)
Fixpoint at_least (n : nat) (p : Pattern) : Pattern :=
  match n with
  | O => Star p
  | S n' => Seq p (at_least n' p)
  end.

(** The iterations of a star: one more [step] that consumes a character,
    or the rest of the pattern. *)
Fixpoint iterate (step : list ascii -> (list ascii -> bool) -> bool)
    (k : list ascii -> bool) (fuel : nat) (s : list ascii) : bool :=
  match fuel with
  | O => k s
  | S fuel' =>
      step s (fun s' => (length s' <? length s)%nat && iterate step k fuel' s')
      || k s
  end.

(** [matches p s k]: the pattern matches a prefix of [s] such that the
    rest of the pattern, [k], matches what is left. *)
Fixpoint matches (p : Pattern) (s : list ascii) (k : list ascii -> bool)
  : bool :=
  match p with
  | Class items =>
      match s with
      | c :: s' => in_class items c && k s'
      | [] => false
      end
  | Char x =>
      match s with
      | c :: s' => Ascii.eqb c x && k s'
      | [] => false
      end
  | Dot =>
      match s with
      | c :: s' => not_line_terminator c && k s'
      | [] => false
      end
  | Seq p q => matches p s (fun s' => matches q s' k)
  | Star p => iterate (matches p) k (length s) s
  | Lookahead p => matches p s (fun _ => true) && k s
  | Eos =>
      match s with
      | [] => k []
      | _ :: _ => false
      end
  end.

(** A pattern of one character that satisfies [f]. *)
Definition single (f : ascii -> bool) (s : list ascii)
    (k : list ascii -> bool) : bool :=
  match s with
  | c :: s' => f c && k s'
  | [] => false
  end.

(** [/^p/.test(s)] *)
Definition test (p : Pattern) (s : string) : bool :=
  matches p (list_ascii_of_string s) (fun _ => true).

(** [/^[\w.%+-]+@[\w.-]+\.[a-zA-Z]{2,}$/] *)
Definition email_pattern : Pattern :=
  Seq (at_least 1 (Class [Word; Single "."; Single "%"; Single "+"; Single "-"]))
    (Seq (Char "@")
       (Seq (at_least 1 (Class [Word; Single "."; Single "-"]))
          (Seq (Char ".")
             (Seq (at_least 2 (Class [Range "a" "z"; Range "A" "Z"])) Eos)))).

(** The class [[A-Za-z\d$%^*-_]] of the password pattern, in which [*-_]
    is a range. *)
Definition password_class : list ClassItem :=
  [Range "A" "Z"; Range "a" "z"; Digit; Single "$"; Single "%"; Single "^";
   Range "*" "_"].

(** [/^(?=.*[A-Za-z])(?=.*\d)(?=.*[$%^*-_])[A-Za-z\d$%^*-_]{12,}$/] *)
Definition password_pattern : Pattern :=
  Seq (Lookahead (Seq (Star Dot) (Class [Range "A" "Z"; Range "a" "z"])))
    (Seq (Lookahead (Seq (Star Dot) (Class [Digit])))
       (Seq (Lookahead
               (Seq (Star Dot)
                  (Class [Single "$"; Single "%"; Single "^"; Range "*" "_"])))
          (Seq (at_least 12 (Class password_class)) Eos))).

End Regex.

(** ** Sign-up and sign-in *)

Module Auth.
Import Js Api Regex.

(** *** The identity provider *)

(** The answer to a request: served, or rejected with an error whose
    [code] may be missing. *)
Inductive Reply (A : Type) :=
| Served (a : A)
| Rejected (code : option string).
Arguments Served {A} a.
Arguments Rejected {A} code.

(** What the identity provider answers during one invocation.  Of the
    answer to [adminInitiateAuth] the handlers read
    [AuthenticationResult], which may be missing, and its [IdToken]. *)
Record Cognito := mkCognito {
  adminCreateUser : Reply unit;
  adminSetUserPassword : Reply unit;
  adminInitiateAuth : Reply (option JsValue)
}.

(** The requests of the handlers; the pool and the client they name are
    those of the environment. *)
Inductive Call :=
| AdminCreateUser (Username : JsValue)
    (UserAttributes : list (string * JsValue))
    (TemporaryPassword : JsValue) (MessageAction : string)
| AdminSetUserPassword (Username Password : JsValue) (Permanent : bool)
| AdminInitiateAuth (AuthFlow : string) (USERNAME PASSWORD : JsValue).

(** *** Asynchronous functions that call the identity provider *)

(** What is thrown: an exception of the language or the rejection of a
    request. *)
Inductive Failure :=
| Raised (e : Exn)
| Refused (code : option string).

(** [error.code] *)
Definition code (error : Failure) : option string :=
  match error with
  | Raised _ => None
  | Refused c => c
  end.

(** The end of a run, and the requests it made. *)
Record Ran (A : Type) := mkRan {
  result : A + Failure;
  calls : list Call
}.
Arguments mkRan {A} result calls.
Arguments result {A} r.
Arguments calls {A} r.

Definition pure {A} (a : A) : Ran A := mkRan (inl a) [].

Definition raise {A} (error : Failure) : Ran A := mkRan (inr error) [].

Definition and_then {A B} (m : Ran A) (k : A -> Ran B) : Ran B :=
  match result m with
  | inl a => mkRan (result (k a)) (calls m ++ calls (k a))
  | inr error => mkRan (inr error) (calls m)
  end.

(** [try { m } catch (error) { h error }] *)
Definition attempt {A} (m : Ran A) (h : Failure -> Ran A) : Ran A :=
  match result m with
  | inl a => m
  | inr error => mkRan (result (h error)) (calls m ++ calls (h error))
  end.

Notation "'do' x '<-' m ';' k" := (and_then m (fun x => k))
  (at level 10, x pattern, m at level 100, k at level 200).

(** [await cognito.request(params).promise()] *)
Definition request {A} (call : Call) (reply : Reply A) : Ran A :=
  match reply with
  | Served a => mkRan (inl a) [call]
  | Rejected c => mkRan (inr (Refused c)) [call]
  end.

(** [const { ... } = JSON.parse(event.body)] *)
Definition parse (b : Body) : Ran (string -> JsValue) :=
  match b with
  | NotJson => raise (Raised SyntaxError)
  | JsonNull => raise (Raised TypeError)
  | JsonObject ps => pure (property ps)
  | JsonOther => pure (fun _ => JUndefined)
  end.

(** [error.code === name] *)
Definition code_is (error : Failure) (name : string) : bool :=
  match code error with
  | Some c => String.eqb c name
  | None => false
  end.

(** The body [{ error: text }]. *)
Definition error_body (text : string) : JsTree := Object [("error", str text)].

Section Handlers.
Variable Number_toString : Decimal -> string.
Variable cognito : Cognito.

Definition validateEmail (email : JsValue) : bool :=
  test email_pattern (ToString Number_toString email).

Definition validatePassword (password : JsValue) : bool :=
  test password_pattern (ToString Number_toString password).

Definition handleSignup (event : Event) : Ran Response :=
  attempt
    (do field <- parse (body event);
     let firstName := field "firstName" in
     let lastName := field "lastName" in
     let email := field "email" in
     let password := field "password" in
     if negb (truthy firstName) || negb (truthy lastName)
        || negb (truthy email) || negb (truthy password)
     then pure (formatResponse 400 (error_body "All fields are required."))
     else if negb (validateEmail email)
     then pure (formatResponse 400 (error_body "Invalid email format."))
     else if negb (validatePassword password)
     then pure (formatResponse 400 (error_body "Invalid password format."))
     else
       do _ <- request
                 (AdminCreateUser email
                    [ ("given_name", firstName); ("family_name", lastName);
                      ("email", email); ("email_verified", JStr "true") ]
                    password "SUPPRESS")
                 (adminCreateUser cognito);
       do _ <- request (AdminSetUserPassword email password true)
                 (adminSetUserPassword cognito);
       pure (formatResponse 200
               (Object [("message", str "User created successfully.")])))
    (fun error =>
       pure (formatResponse
               (if code_is error "UsernameExistsException" then 400 else 502)
               (error_body
                  (if code_is error "UsernameExistsException"
                   then "Email already exists." else "Signup failed.")))).

Definition handleSignin (event : Event) : Ran Response :=
  attempt
    (do field <- parse (body event);
     let email := field "email" in
     let password := field "password" in
     do authResult <- request
                        (AdminInitiateAuth "ADMIN_USER_PASSWORD_AUTH"
                           email password)
                        (adminInitiateAuth cognito);
     match authResult with
     | None =>
         pure (formatResponse 400
                 (error_body "Authentication failed. Try again."))
     | Some IdToken =>
         pure (formatResponse 200 (Object [("idToken", Prim IdToken)]))
     end)
    (fun error =>
       pure (formatResponse 400
               (error_body
                  (if code_is error "NotAuthorizedException"
                   then "Invalid email or password."
                   else "Authentication failed.")))).
End Handlers.

(** The [handleSignin] of [task11/app/lambdas/api_handler/index.js],
    without what it logs. *)
Definition handleSignin_task11 (cognito : Cognito) (event : Event)
  : Ran Response :=
  attempt
    (do field <- parse (body event);
     let email := field "email" in
     let password := field "password" in
     do AuthenticationResult <- request
                                  (AdminInitiateAuth "ADMIN_USER_PASSWORD_AUTH"
                                     email password)
                                  (adminInitiateAuth cognito);
     match AuthenticationResult with
     | None =>
         pure (formatResponse 400
                 (error_body "Authentication failed. Try again."))
     | Some IdToken =>
         pure (formatResponse 200 (Object [("idToken", Prim IdToken)]))
     end)
    (fun error =>
       if code_is error "NotAuthorizedException"
       then pure (formatResponse 400 (error_body "Invalid email or password."))
       else pure (formatResponse 400 (error_body "Authentication failed."))).

End Auth.

(** ** The router *)

Module Router.
Import Js Dynamo Api Auth.

(** The event with the two properties that route it. *)
Record GatewayEvent := mkGatewayEvent {
  httpMethod : string;
  resource : string;
  event : Event
}.

(** A handler that calls the identity provider, as a function of the
    database, which it leaves alone. *)
Definition lift (r : Ran Response) : Async Response :=
  fun db =>
    mkCompletion
      match result r with
      | inl response => Returned response
      | inr (Raised e) => Thrown e
      | inr (Refused _) => Thrown ServiceError
      end
      db [].

Definition notFoundHandler (event : Event) : Async Response :=
  ret (formatResponse 404 (message "Not Found")).

(** [routes[routeKey]]: a route key has a space, which no property that
    an object inherits has. *)
Fixpoint route {A} (routeKey : string) (routes : list (string * A))
  : option A :=
  match routes with
  | [] => None
  | (key, handlerFunction) :: routes' =>
      if String.eqb routeKey key then Some handlerFunction
      else route routeKey routes'
  end.

Section Handler.
Variable Number_toString : Decimal -> string.
(** [error.message] *)
Variable message_of : Exn -> string.
Variable inv : Invocation.
Variable cognito : Cognito.

Definition routes : list (string * (Event -> Async Response)) :=
  [ ("POST /signup", fun event => lift (handleSignup Number_toString cognito event));
    ("POST /signin", fun event => lift (handleSignin cognito event));
    ("GET /tables", handleGetTables inv);
    ("POST /tables", handleCreateTable Number_toString inv);
    ("GET /tables/{tableId}", handleGetTableById inv);
    ("GET /reservations", handleGetReservations inv);
    ("POST /reservations", handleCreateReservation inv) ].

Definition handler (gateway : GatewayEvent) : Async Response :=
  try_catch
    (let routeKey := httpMethod gateway ++ " " ++ resource gateway in
     let handlerFunction := default notFoundHandler (route routeKey routes) in
     let* response := handlerFunction (event gateway) in
     ret response)
    (fun error =>
       ret (formatResponse 500
              (Object [ ("message", str "Internal Server Error");
                        ("error", str (message_of error)) ]))).
End Handler.

End Router.

(** ** More of the vocabulary *)

Module Facts.
Import Js Dynamo Api Spec Regex Auth Router.

(** [[A-Za-z]] *)
Definition letter : list ClassItem := [Range "A" "Z"; Range "a" "z"].

(** [[A-Za-z\d]] *)
Definition letter_or_digit : list ClassItem :=
  [Range "A" "Z"; Range "a" "z"; Digit].

(** The classes of the local part and of the domain of an address. *)
Definition local_class : list ClassItem :=
  [Word; Single "."; Single "%"; Single "+"; Single "-"].
Definition domain_class : list ClassItem := [Word; Single "."; Single "-"].

(** [[a-zA-Z]], the class of the last label of the domain. *)
Definition label_class : list ClassItem := [Range "a" "z"; Range "A" "Z"].

(** The text is [local@domain.label]. *)
Definition address (l local domain label : list ascii) : Prop :=
  l = (local ++ "@"%char :: domain ++ "."%char :: label)%list /\
  local <> [] /\ forallb (in_class local_class) local = true /\
  domain <> [] /\ forallb (in_class domain_class) domain = true /\
  (2 <= length label)%nat /\ forallb (in_class label_class) label = true.

(** How many times a character occurs. *)
Definition occurrences (c : ascii) (l : list ascii) : nat :=
  count_occ ascii_dec l c.

(** The status codes of the API. *)
Definition statuses : list Z := [200; 400; 401; 404; 500; 502].

(** The response has the CORS headers and one of the status codes. *)
Definition well_formed (response : Response) : Prop :=
  headers response = corsHeaders /\ statusCode response ∈ statuses.

(** The function leaves the database alone and does not throw. *)
Definition read_only {A} (m : Async A) : Prop :=
  forall db, database (m db) = db /\ writes (m db) = [] /\
             exists a, outcome (m db) = Returned a.

(** The sign-up passes the checks of [handleSignup]: the body can be
    read, its four fields are truthy, the e-mail address and the
    password have the required form. *)
Definition acceptable (Number_toString : Decimal -> string) (event : Event)
  : bool :=
  match fields (body event) with
  | Some field =>
      truthy (field "firstName") && truthy (field "lastName")
      && truthy (field "email") && truthy (field "password")
      && validateEmail Number_toString (field "email")
      && validatePassword Number_toString (field "password")
  | None => false
  end.

(** The status code a run ended with. *)
Definition status (run : Ran Response) : option Z :=
  match result run with
  | inl response => Some (statusCode response)
  | inr _ => None
  end.

(** The request that creates the user of a sign-up. *)
Definition creation (field : string -> JsValue) : Call :=
  AdminCreateUser (field "email")
    [ ("given_name", field "firstName"); ("family_name", field "lastName");
      ("email", field "email"); ("email_verified", JStr "true") ]
    (field "password") "SUPPRESS".

(** The response to a sign-up that the identity provider rejected. *)
Definition signup_failure (code : option string) : Response :=
  if bool_decide (code = Some "UsernameExistsException")
  then formatResponse 400 (error_body "Email already exists.")
  else formatResponse 502 (error_body "Signup failed.").

(** [`${event.httpMethod} ${event.resource}`] *)
Definition routeKey (gateway : GatewayEvent) : string :=
  httpMethod gateway ++ " " ++ resource gateway.

(** The routes that read or write the database. *)
Definition protected_routes : list string :=
  [ "GET /tables"; "POST /tables"; "GET /tables/{tableId}";
    "GET /reservations"; "POST /reservations" ].

(** The routes that create a table or a reservation. *)
Definition creating_routes : list string :=
  [ "POST /tables"; "POST /reservations" ].

(** The routes of the API. *)
Definition route_keys : list string :=
  "POST /signup" :: "POST /signin" :: protected_routes.

(** The table that the handler of a route writes to. *)
Definition written (key : string) : option DynamoTable :=
  if String.eqb key "POST /tables" then Some TABLES_TABLE
  else if String.eqb key "POST /reservations" then Some RESERVATIONS_TABLE
  else None.

(** What [handler] answers when the handler of the route throws. *)
Definition internal_error (text : string) : Response :=
  formatResponse 500
    (Object [ ("message", str "Internal Server Error"); ("error", str text) ]).

(** What reading the body throws. *)
Definition unreadable (b : Body) : Exn :=
  match b with
  | NotJson => SyntaxError
  | _ => TypeError
  end.

(** The function returns a well-formed response, if it returns. *)
Definition answers (m : Async Response) : Prop :=
  forall db,
    match outcome (m db) with
    | Returned response => well_formed response
    | Thrown _ => True
    end.

(** The function writes at most once, to table [t], and leaves the
    database alone when it does not write. *)
Definition writes_once (t : DynamoTable) {A} (m : Async A) : Prop :=
  forall db,
    (writes (m db) = [] /\ database (m db) = db) \/
    (exists item key,
       writes (m db) = [(t, item)] /\
       database (m db) = with_contents t (<[key := item]> (contents t db)) db).

(** The function does not write. *)
Definition silent {A} (m : Async A) : Prop :=
  forall db, writes (m db) = [] /\ database (m db) = db.

(** Every table and reservation of [db] is still in [db']. *)
Definition extends (db db' : Database) : Prop :=
  forall t key, is_Some (contents t db !! key) -> is_Some (contents t db' !! key).

(** The function returns: it does not throw. *)
Definition returns {A} (m : Async A) : Prop :=
  forall db, exists a, outcome (m db) = Returned a.




(** The members of an entry of the two listings. *)
Definition reservation_members : list string :=
  [ "tableNumber"; "clientName"; "phoneNumber"; "date"; "slotTimeStart";
    "slotTimeEnd" ].
Definition table_members : list string :=
  [ "id"; "number"; "places"; "isVip"; "minOrder" ].


(** The response to table data of the wrong types. *)
Definition InvalidTable : Response :=
  formatResponse 400 (message "Invalid table data.").

End Facts.

(** ** A visitor who signs up *)

Module Requests.
Import Js Dynamo Api Spec Scenario Auth Router Facts.

(** None of the requests below has a number where a text is read, so it
    does not matter how a number is written. *)
Definition written_number : Decimal -> string := fun _ => "0".

(** [error.message] *)
Definition message_of (error : Exn) : string :=
  match error with
  | SyntaxError => "Unexpected token"
  | TypeError => "Cannot destructure property of null"
  | ServiceError => "Service unavailable"
  end.

(** An identity provider that serves every request. *)
Definition serving : Cognito :=
  mkCognito (Served tt) (Served tt) (Served (Some (JStr "eyJraWQ"))).

(** An identity provider that knows the user already. *)
Definition knowing : Cognito :=
  mkCognito (Rejected (Some "UsernameExistsException")) (Served tt)
    (Served (Some (JStr "eyJraWQ"))).

Definition signup_body (email password : string) : gmap string Scalar :=
  {[ "firstName" := Str "Ada"; "lastName" := Str "Lovelace";
     "email" := Str email; "password" := Str password ]}.

(** [POST /signup], which carries no identity. *)
Definition signup (email password : string) : Event :=
  mkEvent None (JsonObject (signup_body email password)) None None.

(** [POST /signin] *)
Definition signin : Event :=
  mkEvent None
    (JsonObject {[ "email" := Str "ada@example.com";
                   "password" := Str "Abcdefghijk1" ]})
    None None.

(** An invocation during which DynamoDB serves no request. *)
Definition outage : Invocation :=
  mkInvocation "9b2c1f0e-3d4a-4b5c-8d6e-7f8091a2b3c4"
    "2024-05-30T12:10:00.000Z" (fun _ => true).

(** The preflight request of a browser. *)
Definition preflight : GatewayEvent :=
  mkGatewayEvent "OPTIONS" "/tables" anonymous_request.

(** [GET /tables] from nobody. *)
Definition anonymous_listing : GatewayEvent :=
  mkGatewayEvent "GET" "/tables" anonymous_request.

(** [POST /reservations] without a body, from bob. *)
Definition empty_booking : GatewayEvent :=
  mkGatewayEvent "POST" "/reservations" empty_request.

(** A table whose number is a text. *)
Definition quoted_table : Event :=
  mkEvent (Some "alice")
    (JsonObject (<[ "number" := Str "7" ]> new_table_body)) None None.


End Requests.


Import Js Dynamo Api Spec Scenario.

Ltac map_lookups :=
  repeat first
    [ rewrite lookup_insert_eq
    | rewrite lookup_singleton_eq
    | rewrite lookup_insert_ne by discriminate
    | rewrite lookup_singleton_ne by discriminate
    | rewrite lookup_empty ].

(** ** Comparisons, marshalling and scans *)



Lemma ltb_leb (s t : string) : String.ltb s t = true -> String.leb s t = true.
Proof. unfold String.ltb, String.leb. destruct (String.compare s t); congruence. Qed.

Lemma not_leb_ltb (s t : string) : String.leb s t = false -> String.ltb t s = true.
Proof.
  unfold String.ltb, String.leb. rewrite (String.compare_antisym t s).
  destruct (String.compare s t); cbn; congruence.
Qed.







(** ** The paths through [handleCreateReservation] *)

Section Runs.
Variables (inv : Invocation) (ev : Event) (db : Database).

Lemma create_unauthenticated :
  truthy (getUsernameFromToken ev) = false ->
  handleCreateReservation inv ev db = mkCompletion (Returned Unauthorized) db [].
Proof.
  intros H. unfold handleCreateReservation. rewrite H. reflexivity.
Qed.

Lemma create_unreadable :
  authenticated ev -> fields (body ev) = None ->
  exists e, handleCreateReservation inv ev db = mkCompletion (Thrown e) db [].
Proof.
  intros Hauth Hf. unfold handleCreateReservation. rewrite Hauth.
  destruct (body ev); try discriminate; eexists; reflexivity.
Qed.

(** The handler on a request that is authenticated and whose body can be
    destructured, as a decision tree. *)
Lemma create_destructured field :
  authenticated ev -> fields (body ev) = Some field ->
  handleCreateReservation inv ev db =
    if negb (truthy (field "tableNumber")) || negb (truthy (field "date"))
       || negb (truthy (field "slotTimeStart"))
       || negb (truthy (field "slotTimeEnd"))
    then mkCompletion (Returned ValidationError) db []
    else
      if unavailable inv (ScanRequest TABLES_TABLE) then failed db
      else
        match scan_items (table_query (field "tableNumber")) db with
        | None => failed db
        | Some [] => mkCompletion (Returned TableNotFound) db []
        | Some (table :: _) =>
            if unavailable inv (ScanRequest RESERVATIONS_TABLE) then failed db
            else
              match scan_items (conflict_query (attribute table "id")
                                  (field "date") (field "slotTimeStart")
                                  (field "slotTimeEnd")) db with
              | None => failed db
              | Some (_ :: _) => mkCompletion (Returned SlotConflict) db []
              | Some [] =>
                  if unavailable inv (PutRequest RESERVATIONS_TABLE)
                  then failed db
                  else
                    match put_item RESERVATIONS_TABLE
                            (new_reservation inv table (getUsernameFromToken ev)
                               (field "clientName") (field "phoneNumber")
                               (field "date") (field "slotTimeStart")
                               (field "slotTimeEnd")) db with
                    | None => failed db
                    | Some (item, db') =>
                        mkCompletion (Returned (Created (uuid inv))) db'
                          [(RESERVATIONS_TABLE, item)]
                    end
              end
        end.
Proof.
  intros Hauth Hf. unfold handleCreateReservation. rewrite Hauth.
  assert (Hrun : forall k : (string -> JsValue) -> Async Response,
             bind (JSON_parse (body ev)) (fun parsed => bind (destructure parsed) k) db
             = k field db).
  { intros k. destruct (body ev); try discriminate; injection Hf as <-;
      unfold bind; cbn; destruct (k _ db); reflexivity. }
  cbn [negb]. rewrite Hrun. clear Hrun.
  destruct (_ || _); [reflexivity|].
  unfold try_catch, bind, scan, put, failed.
  cbn [TableName table_query conflict_query].
  destruct (unavailable inv (ScanRequest TABLES_TABLE)); [reflexivity|].
  destruct (scan_items _ db) as [[|table rest]|]; try reflexivity.
  cbn [ret outcome database writes app].
  destruct (unavailable inv (ScanRequest RESERVATIONS_TABLE)); [reflexivity|].
  destruct (scan_items _ db) as [[|r rs]|]; try reflexivity.
  cbn [ret outcome database writes app length Nat.ltb Nat.leb].
  destruct (unavailable inv (PutRequest RESERVATIONS_TABLE)); [reflexivity|].
  destruct (put_item _ _ db) as [[item db']|]; reflexivity.
Qed.
End Runs.

(** ** Validation, table lookup and the conflict policy *)






(** Slots that share a time conflict. *)
Lemma intersecting_conflict a b c d :
  intersecting a b c d = true -> slot_conflict a b c d = true.
Proof.
  unfold intersecting, slot_conflict.
  intros [Had Hcb]%andb_true_iff.
  destruct (String.leb a c) eqn:Hac.
  - by rewrite (ltb_leb _ _ Hcb).
  - apply not_leb_ltb, ltb_leb in Hac. by rewrite Hac, (ltb_leb _ _ Had).
Qed.






Lemma create_invalid inv ev db field k :
  authenticated ev -> fields (body ev) = Some field ->
  k ∈ required -> truthy (field k) = false ->
  handleCreateReservation inv ev db = mkCompletion (Returned ValidationError) db [].
Proof.
  intros Hauth Hf Hk Hfalsy.
  rewrite (create_destructured _ _ _ _ Hauth Hf).
  assert (Hany : negb (truthy (field "tableNumber")) || negb (truthy (field "date"))
                 || negb (truthy (field "slotTimeStart"))
                 || negb (truthy (field "slotTimeEnd")) = true).
  { unfold required in Hk.
    repeat (apply elem_of_cons in Hk as [->|Hk]);
      [rewrite Hfalsy; cbn; rewrite ?orb_true_r; reflexivity..|].
    by apply not_elem_of_nil in Hk. }
  rewrite Hany. reflexivity.
Qed.

(** C5, as amended.  An authenticated request whose body can be
    destructured, and in which one of [tableNumber], [date],
    [slotTimeStart] and [slotTimeEnd] is falsy (missing and empty are,
    see [missing_or_empty_falsy]), is answered [ValidationError] with
    status 400 and the message "Missing required fields.", and nothing
    is written.  On an authenticated request whose body cannot be
    destructured (no body, [null], or a text that is not JSON) the
    handler throws before it validates, and nothing is written either. *)
Theorem missing_field_rejected inv ev db :
  authenticated ev ->
  (forall field k,
     fields (body ev) = Some field -> k ∈ required -> truthy (field k) = false ->
     handleCreateReservation inv ev db
     = mkCompletion (Returned ValidationError) db []) /\
  (fields (body ev) = None ->
   exists e, handleCreateReservation inv ev db = mkCompletion (Thrown e) db []).
Proof.
  intros Hauth. split.
  - intros field k. by apply create_invalid.
  - by apply create_unreadable.
Qed.

Lemma missing_or_empty_falsy v : missing_or_empty v = true -> truthy v = false.
Proof.
  destruct v as [| | |n|s]; cbn; try discriminate; [reflexivity|].
  intros ->. reflexivity.
Qed.

(** C6.  Authorization comes first: a request without an identity is
    answered [Unauthorized] whatever its body is, and a request that is
    answered [ValidationError] has an identity. *)
Theorem authorization_before_validation inv ev db :
  (truthy (getUsernameFromToken ev) = false ->
   handleCreateReservation inv ev db = mkCompletion (Returned Unauthorized) db []) /\
  (outcome (handleCreateReservation inv ev db) = Returned ValidationError ->
   authenticated ev).
Proof.
  split; [apply create_unauthenticated|].
  intros Hout. unfold authenticated.
  destruct (truthy (getUsernameFromToken ev)) eqn:Hauth; [reflexivity|].
  rewrite (create_unauthenticated _ _ _ Hauth) in Hout. discriminate.
Qed.

(** ** What a reservation writes *)














(** ** Requests one after the other *)








(** ** Texts that are not numbers *)


























(** ** Listing reservations *)

Lemma stringify_attribute item name :
  stringify_prim (attribute item name) = item !! name.
Proof. unfold attribute. by destruct (item !! name) as [[]|]. Qed.

Lemma attributes_json r l :
  JSON_stringify
    (Object (map (fun '(name, source) => (name, Prim (attribute r source))) l))
  = Some (Obj (omap (fun '(name, source) => a ← r !! source; Some (name, Leaf a))
                 l)).
Proof.
  cbn [JSON_stringify]. do 2 f_equal.
  induction l as [|[name source] l IH]; [reflexivity|].
  cbn [map omap list_omap JSON_stringify]. rewrite stringify_attribute, IH.
  by destruct (r !! source).
Qed.

Lemma reservation_view_json r :
  JSON_stringify (reservation_view r) = Some (projection r).
Proof.
  exact (attributes_json r
           [ ("tableNumber", "tableNumber"); ("clientName", "clientName");
             ("phoneNumber", "phoneNumber"); ("date", "date");
             ("slotTimeStart", "time"); ("slotTimeEnd", "slotTimeEnd") ]).
Qed.

Lemma member_omap (r : Item) (name source : string)
    (l1 l2 : list (string * string)) :
  Forall (fun entry => String.eqb name entry.1 = false) l1 ->
  Forall (fun entry => String.eqb name entry.1 = false) l2 ->
  member name
    (omap (fun '(name, source) => a ← r !! source; Some (name, Leaf a))
       (l1 ++ (name, source) :: l2)%list)
  = Leaf <$> r !! source.
Proof.
  intros H1 H2. induction H1 as [|[n s] l1 Hn _ IH]; cbn [app omap list_omap].
  - assert (Hrest : member name
                      (omap (fun '(name, source) =>
                               a ← r !! source; Some (name, Leaf a)) l2) = None).
    { induction H2 as [|[n s] l2 Hn _ IH]; [reflexivity|].
      cbn [omap list_omap]. destruct (r !! s); cbn [mbind option_bind member];
        [|exact IH]. cbn [fst] in Hn. by rewrite Hn. }
    destruct (r !! source) as [a|]; cbn [mbind option_bind member];
      [by rewrite String.eqb_refl|exact Hrest].
  - destruct (r !! s); cbn [mbind option_bind member]; [|exact IH].
    cbn [fst] in Hn. by rewrite Hn.
Qed.





(** ** Table identifiers *)

Lemma table_view_json table :
  JSON_stringify (table_view table) = Some (table_json table).
Proof. reflexivity. Qed.






(** ** The theorems on the restaurant with one table *)















(** A booking without a date is answered [ValidationError]. *)
Lemma missing_field_rejected_witness :
  handleCreateReservation first_invocation
    (mkEvent (Some "bob") (JsonObject undated_body) None None) one_table
  = mkCompletion (Returned ValidationError) one_table [].
Proof.
  destruct (missing_field_rejected first_invocation
              (mkEvent (Some "bob") (JsonObject undated_body) None None)
              one_table) as [Hinvalid _]; [reflexivity|].
  apply (Hinvalid (property undated_body) "date").
  - reflexivity.
  - unfold required. set_solver.
  - vm_compute. reflexivity.
Defined.

(** A request without a body has none of the required fields, and the
    handler throws a [TypeError] instead of answering
    [ValidationError]. *)
Lemma missing_field_counterexample :
  authenticated empty_request /\
  handleCreateReservation first_invocation empty_request one_table
  = mkCompletion (Thrown TypeError) one_table [].
Proof. split; vm_compute; reflexivity. Qed.

(** A request from nobody is answered [Unauthorized]. *)
Lemma authorization_before_validation_witness :
  handleCreateReservation first_invocation anonymous_request one_table
  = mkCompletion (Returned Unauthorized) one_table [].
Proof.
  apply (authorization_before_validation first_invocation anonymous_request
           one_table).
  reflexivity.
Defined.







(** * Sign-up, sign-in, the router and the other handlers *)

Import Regex Auth Router Facts Requests.

(** ** The two patterns *)

Lemma iterate_single f k : forall fuel s,
  (length s <= fuel)%nat ->
  iterate (single f) k fuel s = true <->
  exists s1 s2, s = (s1 ++ s2)%list /\ forallb f s1 = true /\ k s2 = true.
Proof.
  induction fuel as [|fuel IH]; intros s Hlen.
  - destruct s; [|cbn in Hlen; lia]. cbn. split.
    + intros Hk. by exists [], [].
    + intros (s1 & s2 & Hs & _ & Hk).
      symmetry in Hs. apply app_eq_nil in Hs as [_ ->]. exact Hk.
  - cbn [iterate]. rewrite orb_true_iff. split.
    + intros [Hstep|Hk]; [|by exists [], s].
      destruct s as [|c s]; [discriminate|]. cbn [single] in Hstep.
      apply andb_true_iff in Hstep as [Hc Hrest].
      apply andb_true_iff in Hrest as [_ Hrest].
      apply IH in Hrest as (s1 & s2 & -> & Hall & Hk); [|cbn in Hlen; lia].
      exists (c :: s1), s2. cbn. by rewrite Hc, Hall.
    + intros (s1 & s2 & -> & Hall & Hk).
      destruct s1 as [|c s1]; [by right|]. left.
      cbn in Hall. apply andb_true_iff in Hall as [Hc Hall].
      cbn [app single]. rewrite Hc. cbn [andb].
      apply andb_true_iff. split; [apply Nat.ltb_lt; cbn; lia|].
      apply IH; [cbn in Hlen; lia|]. by exists s1, s2.
Qed.

Lemma matches_Seq p q s k :
  matches (Seq p q) s k = matches p s (fun s' => matches q s' k).
Proof. reflexivity. Qed.

Lemma star_single p f k s :
  matches p = single f ->
  matches (Star p) s k = true <->
  exists s1 s2, s = (s1 ++ s2)%list /\ forallb f s1 = true /\ k s2 = true.
Proof.
  intros Hp. cbn [matches]. rewrite Hp. by apply iterate_single.
Qed.

Lemma at_least_single p f n : forall k s,
  matches p = single f ->
  matches (at_least n p) s k = true <->
  exists s1 s2, s = (s1 ++ s2)%list /\ (n <= length s1)%nat /\
    forallb f s1 = true /\ k s2 = true.
Proof.
  induction n as [|n IH]; intros k s Hp.
  - cbn [at_least]. rewrite (star_single p f k s Hp). split.
    + intros (s1 & s2 & ? & ? & ?). exists s1, s2. repeat split; [done|lia|done..].
    + intros (s1 & s2 & ? & _ & ? & ?). by exists s1, s2.
  - cbn [at_least matches]. rewrite Hp. split.
    + destruct s as [|c s]; [discriminate|]. cbn [single].
      intros [Hc Hrest]%andb_true_iff.
      apply IH in Hrest as (s1 & s2 & -> & Hn & Hall & Hk); [|exact Hp].
      exists (c :: s1), s2. cbn. rewrite Hc, Hall. repeat split; [lia|done].
    + intros (s1 & s2 & -> & Hn & Hall & Hk).
      destruct s1 as [|c s1]; [cbn in Hn; lia|].
      cbn in Hall. apply andb_true_iff in Hall as [Hc Hall].
      cbn [app single]. rewrite Hc. cbn [andb].
      apply IH; [exact Hp|]. exists s1, s2. repeat split; [cbn in Hn; lia|done..].
Qed.

Lemma forallb_app_iff {A} (f : A -> bool) (l1 l2 : list A) :
  forallb f (l1 ++ l2) = true <-> forallb f l1 = true /\ forallb f l2 = true.
Proof. rewrite forallb_app. apply andb_true_iff. Qed.

(** A character of the class somewhere on the first line: [(?=.*[items])]. *)
Lemma lookahead_somewhere items s :
  matches (Seq (Star Dot) (Class items)) s (fun _ => true) = true <->
  exists s1 c s2, s = (s1 ++ c :: s2)%list /\
    forallb not_line_terminator s1 = true /\ in_class items c = true.
Proof.
  rewrite matches_Seq, (star_single Dot not_line_terminator) by reflexivity.
  split.
  - intros (s1 & s2 & -> & Hall & Hk). destruct s2 as [|c s2]; [discriminate|].
    apply andb_true_iff in Hk as [Hc _]. by exists s1, c, s2.
  - intros (s1 & c & s2 & -> & Hall & Hc). exists s1, (c :: s2).
    cbn [matches]. by rewrite Hc.
Qed.

(** The whole text is of the class and has [n] characters or more:
    [[items]{n,}$]. *)
Lemma at_least_to_the_end items n s :
  matches (Seq (at_least n (Class items)) Eos) s (fun _ => true) = true <->
  (n <= length s)%nat /\ forallb (in_class items) s = true.
Proof.
  rewrite matches_Seq.
  rewrite (at_least_single (Class items) (in_class items)) by reflexivity.
  split.
  - intros (s1 & s2 & -> & Hn & Hall & Hk). destruct s2; [|discriminate].
    rewrite app_nil_r. done.
  - intros [Hn Hall]. exists s, []. by rewrite app_nil_r.
Qed.

Lemma class_not_line_terminator c :
  in_class password_class c = true -> not_line_terminator c = true.
Proof. destruct c as [[] [] [] [] [] [] [] []]; vm_compute; congruence. Qed.

Lemma digit_is_special c :
  in_class [Digit] c = true ->
  in_class [Single "$"; Single "%"; Single "^"; Range "*" "_"] c = true.
Proof. destruct c as [[] [] [] [] [] [] [] []]; vm_compute; congruence. Qed.

Lemma letter_or_digit_in_class c :
  in_class letter_or_digit c = true -> in_class password_class c = true.
Proof. destruct c as [[] [] [] [] [] [] [] []]; vm_compute; congruence. Qed.

Lemma somewhere_exists f (l : list ascii) :
  existsb f l = true <->
  exists s1 c s2, l = (s1 ++ c :: s2)%list /\ f c = true.
Proof.
  rewrite existsb_exists. split.
  - intros (c & Hin & Hc). apply in_split in Hin as (s1 & s2 & ->).
    by exists s1, c, s2.
  - intros (s1 & c & s2 & -> & Hc). exists c. split; [|done].
    apply in_or_app. right. by left.
Qed.

Lemma lookahead_in_class items l :
  forallb (in_class password_class) l = true ->
  matches (Seq (Star Dot) (Class items)) l (fun _ => true)
  = existsb (in_class items) l.
Proof.
  intros Hall. apply eq_true_iff_eq.
  rewrite lookahead_somewhere, somewhere_exists. split.
  - intros (s1 & c & s2 & -> & _ & Hc). by exists s1, c, s2.
  - intros (s1 & c & s2 & -> & Hc). exists s1, c, s2. repeat split; [|done].
    apply forallb_app_iff in Hall as [Hall _].
    apply forallb_forall. intros x Hx. apply class_not_line_terminator.
    by apply (proj1 (forallb_forall _ _) Hall).
Qed.

Lemma exists_special l :
  existsb (in_class [Digit]) l = true ->
  existsb (in_class [Single "$"; Single "%"; Single "^"; Range "*" "_"]) l
  = true.
Proof.
  rewrite !existsb_exists. intros (c & Hin & Hc).
  exists c. split; [done|]. by apply digit_is_special.
Qed.

Lemma matches_Lookahead p q s k :
  matches (Seq (Lookahead p) q) s k
  = matches p s (fun _ => true) && matches q s k.
Proof. reflexivity. Qed.

(** X1.  [validatePassword] accepts a text exactly when it has twelve
    characters or more, each of them a letter, a digit, [$], [%], [^] or
    a character from [*] to [_], among them a letter and a digit. *)
Theorem password_accepted nts s :
  validatePassword nts (JStr s)
  = (12 <=? length (list_ascii_of_string s))%nat
    && forallb (in_class password_class) (list_ascii_of_string s)
    && existsb (in_class letter) (list_ascii_of_string s)
    && existsb (in_class [Digit]) (list_ascii_of_string s).
Proof.
  unfold validatePassword, test. cbn [ToString].
  generalize (list_ascii_of_string s). intros l.
  unfold password_pattern. rewrite !matches_Lookahead.
  pose proof (at_least_to_the_end password_class 12 l) as Hbody.
  destruct (matches (Seq (at_least 12 (Class password_class)) Eos) l _) eqn:Hm.
  - apply proj1 in Hbody. destruct (Hbody eq_refl) as [Hlen Hall].
    rewrite !(lookahead_in_class _ _ Hall), Hall.
    apply Nat.leb_le in Hlen. rewrite Hlen. cbn [andb]. fold letter.
    destruct (existsb (in_class [Digit]) l) eqn:Hd;
      [|by rewrite !andb_false_r].
    rewrite (exists_special _ Hd). by rewrite !andb_true_r.
  - rewrite !andb_false_r.
    destruct (12 <=? length l)%nat eqn:Hlen; [|reflexivity].
    destruct (forallb (in_class password_class) l) eqn:Hall; [|reflexivity].
    apply Nat.leb_le in Hlen. destruct Hbody as [_ Hbody].
    by specialize (Hbody (conj Hlen eq_refl)).
Qed.

(** X2.  [validatePassword] accepts a text of twelve letters and digits
    or more that has a letter and a digit: the special character that
    the third lookahead asks for can be the digit, which lies between
    [*] and [_]. *)
Theorem password_without_special_character nts s :
  (12 <= length (list_ascii_of_string s))%nat ->
  forallb (in_class letter_or_digit) (list_ascii_of_string s) = true ->
  existsb (in_class letter) (list_ascii_of_string s) = true ->
  existsb (in_class [Digit]) (list_ascii_of_string s) = true ->
  validatePassword nts (JStr s) = true.
Proof.
  unfold validatePassword, test. cbn [ToString].
  generalize (list_ascii_of_string s). intros l Hlen Hall Hl Hd.
  assert (Hclass : forallb (in_class password_class) l = true).
  { apply forallb_forall. intros c Hc. apply letter_or_digit_in_class.
    by apply (proj1 (forallb_forall _ _) Hall). }
  unfold password_pattern. rewrite !matches_Lookahead.
  rewrite !(lookahead_in_class _ _ Hclass). fold letter.
  rewrite Hl, Hd, (exists_special _ Hd). cbn [andb].
  by apply at_least_to_the_end.
Qed.

Lemma matches_Char x q s k :
  matches (Seq (Char x) q) s k = true <->
  exists s', s = x :: s' /\ matches q s' k = true.
Proof.
  rewrite matches_Seq. cbn [matches]. destruct s as [|c s]; [|].
  - split; [discriminate|]. by intros (s' & Hs & _).
  - destruct (Ascii.eqb_spec c x) as [->|Hne]; cbn [andb].
    + split; [by exists s|]. by intros (s' & [= <-] & Hk).
    + split; [discriminate|]. by intros (s' & [= ? _] & _).
Qed.

Lemma at_least_then p f n q s k :
  matches p = single f ->
  matches (Seq (at_least n p) q) s k = true <->
  exists s1 s2, s = (s1 ++ s2)%list /\ (n <= length s1)%nat /\
    forallb f s1 = true /\ matches q s2 k = true.
Proof. intros Hp. rewrite matches_Seq. by apply at_least_single. Qed.

Lemma nonempty_length {A} (l : list A) : (1 <= length l)%nat <-> l <> [].
Proof. destruct l; cbn; split; try done; lia. Qed.

(** The parts of a text that the address pattern matches. *)
Lemma email_parts l :
  matches email_pattern l (fun _ => true) = true ->
  exists local domain label, address l local domain label.
Proof.
  unfold email_pattern.
  rewrite (at_least_then _ (in_class local_class)) by reflexivity.
  intros (local & r1 & -> & Hlocal & Hl & Hm).
  apply matches_Char in Hm as (r2 & -> & Hm).
  rewrite (at_least_then _ (in_class domain_class)) in Hm by reflexivity.
  destruct Hm as (domain & r3 & -> & Hdomain & Hd & Hm).
  apply matches_Char in Hm as (label & -> & Hm).
  apply at_least_to_the_end in Hm as [Hlabel Ht].
  exists local, domain, label. unfold address.
  by rewrite <- !nonempty_length.
Qed.

(** The address pattern matches a text of such parts. *)
Lemma email_of_parts l local domain label :
  address l local domain label ->
  matches email_pattern l (fun _ => true) = true.
Proof.
  intros (-> & Hlocal & Hl & Hdomain & Hd & Hlabel & Ht).
  apply nonempty_length in Hlocal, Hdomain. unfold email_pattern.
  apply (at_least_then _ (in_class local_class)); [reflexivity|].
  exists local, ("@"%char :: domain ++ "."%char :: label)%list.
  repeat split; try done.
  apply matches_Char. eexists. split; [reflexivity|].
  apply (at_least_then _ (in_class domain_class)); [reflexivity|].
  exists domain, ("."%char :: label)%list. repeat split; try done.
  apply matches_Char. eexists. split; [reflexivity|].
  by apply at_least_to_the_end.
Qed.

(** X3.  [validateEmail] accepts a text exactly when it is
    [local@domain.label] with a local part that is not empty, of word
    characters, [.], [%], [+] and [-]; a domain that is not empty, of
    word characters, [.] and [-]; and a last label of two letters or
    more. *)
Theorem email_accepted nts s :
  validateEmail nts (JStr s) = true <->
  exists local domain label,
    address (list_ascii_of_string s) local domain label.
Proof.
  unfold validateEmail, test. cbn [ToString]. split.
  - apply email_parts.
  - intros (local & domain & label & H). by apply (email_of_parts _ local domain label).
Qed.

Lemma occurrences_app c l1 l2 :
  occurrences c (l1 ++ l2) = (occurrences c l1 + occurrences c l2)%nat.
Proof. apply count_occ_app. Qed.

Lemma occurrences_none f c l :
  f c = false -> forallb f l = true -> occurrences c l = 0%nat.
Proof.
  intros Hc. induction l as [|x l IH]; cbn [forallb]; [reflexivity|].
  intros [Hx Hl]%andb_true_iff. unfold occurrences. cbn [count_occ].
  destruct (ascii_dec x c) as [->|_]; [congruence|]. by apply IH.
Qed.

(** X4.  A text that [validateEmail] accepts has one [@] and no
    space. *)
Theorem email_one_at_sign nts s :
  validateEmail nts (JStr s) = true ->
  occurrences "@" (list_ascii_of_string s) = 1%nat /\
  occurrences " " (list_ascii_of_string s) = 0%nat.
Proof.
  unfold validateEmail, test. cbn [ToString].
  intros (local & domain & label & Hs & _ & Hl & _ & Hd & _ & Ht)%email_parts.
  rewrite Hs. split.
  - rewrite occurrences_app. change ("@"%char :: domain ++ "."%char :: label)%list
      with (["@"%char] ++ domain ++ ["."%char] ++ label)%list.
    rewrite !occurrences_app.
    rewrite (occurrences_none (in_class local_class) "@" _ eq_refl Hl),
      (occurrences_none (in_class domain_class) "@" _ eq_refl Hd),
      (occurrences_none (in_class label_class) "@" _ eq_refl Ht). reflexivity.
  - rewrite occurrences_app. change ("@"%char :: domain ++ "."%char :: label)%list
      with (["@"%char] ++ domain ++ ["."%char] ++ label)%list.
    rewrite !occurrences_app.
    rewrite (occurrences_none (in_class local_class) " " _ eq_refl Hl),
      (occurrences_none (in_class domain_class) " " _ eq_refl Hd),
      (occurrences_none (in_class label_class) " " _ eq_refl Ht). reflexivity.
Qed.

(** ** Sign-up and sign-in *)

Lemma and_then_pure {A B} (a : A) (k : A -> Ran B) : and_then (pure a) k = k a.
Proof. unfold and_then, pure. cbn. by destruct (k a). Qed.

Lemma parse_fields b :
  parse b = match fields b with
            | Some field => pure field
            | None => raise (Raised match b with NotJson => SyntaxError | _ => TypeError end)
            end.
Proof. by destruct b. Qed.

Lemma code_is_decide error name :
  code_is error name = bool_decide (code error = Some name).
Proof.
  unfold code_is. destruct (code error) as [c|]; [|done].
  destruct (String.eqb_spec c name) as [->|Hne].
  - by rewrite bool_decide_eq_true_2.
  - rewrite bool_decide_eq_false_2; [done|]. by intros [= ->].
Qed.

(** The sign-up on a body that cannot be read. *)
Lemma signup_unreadable nts cognito event :
  fields (body event) = None ->
  handleSignup nts cognito event
  = mkRan (inl (formatResponse 502 (error_body "Signup failed."))) [].
Proof. unfold handleSignup. by destruct (body event). Qed.

(** The sign-up that fails a check. *)
Lemma signup_invalid nts cognito event field :
  fields (body event) = Some field -> acceptable nts event = false ->
  exists text,
    handleSignup nts cognito event
    = mkRan (inl (formatResponse 400 (error_body text))) [].
Proof.
  intros Hf. unfold acceptable, handleSignup. rewrite parse_fields, Hf, and_then_pure.
  destruct (truthy (field "firstName")), (truthy (field "lastName")),
    (truthy (field "email")), (truthy (field "password"));
    cbn [andb orb negb]; try (intros _; eexists; reflexivity).
  destruct (validateEmail nts (field "email")); cbn [andb negb];
    [|intros _; eexists; reflexivity].
  destruct (validatePassword nts (field "password")); [discriminate|].
  intros _; eexists; reflexivity.
Qed.

(** The sign-up that passes the checks, by what the identity provider
    answers. *)
Lemma signup_valid nts cognito event :
  acceptable nts event = true ->
  exists field, fields (body event) = Some field /\
    handleSignup nts cognito event
    = match adminCreateUser cognito, adminSetUserPassword cognito with
      | Served _, Served _ =>
          mkRan (inl (formatResponse 200
                        (Object [("message", str "User created successfully.")])))
            [creation field;
             AdminSetUserPassword (field "email") (field "password") true]
      | Served _, Rejected c =>
          mkRan (inl (signup_failure c))
            [creation field;
             AdminSetUserPassword (field "email") (field "password") true]
      | Rejected c, _ => mkRan (inl (signup_failure c)) [creation field]
      end.
Proof.
  unfold acceptable, handleSignup. rewrite parse_fields.
  destruct (fields (body event)) as [field|]; [|discriminate].
  rewrite and_then_pure.
  intros (((((-> & ->)%andb_true_iff & ->)%andb_true_iff & ->)%andb_true_iff
           & ->)%andb_true_iff & ->)%andb_true_iff.
  exists field. split; [reflexivity|]. cbn [andb orb negb].
  unfold signup_failure.
  destruct (adminCreateUser cognito) as [[]|c], (adminSetUserPassword cognito) as [[]|c'];
    unfold attempt, and_then, request, pure; cbn [result calls app];
    rewrite ?code_is_decide; cbn [code];
    repeat case_bool_decide; try reflexivity; try congruence.
Qed.

(** X5.  A sign-up that does not pass the checks of [handleSignup]
    makes no request to the identity provider; it is answered 400 when
    its body can be read and 502 when it cannot. *)
Theorem signup_checks_first nts cognito event :
  acceptable nts event = false ->
  calls (handleSignup nts cognito event) = [] /\
  status (handleSignup nts cognito event)
  = Some match fields (body event) with Some _ => 400 | None => 502 end.
Proof.
  intros Hno. destruct (fields (body event)) as [field|] eqn:Hf.
  - destruct (signup_invalid nts cognito event field Hf Hno) as [text ->].
    by split.
  - rewrite (signup_unreadable nts cognito event Hf). by split.
Qed.

(** X6.  A sign-up that passes the checks requests the creation of the
    user, with the password as temporary password and the message
    suppressed; if that is served it then requests that the same
    password be set permanently, and if it is rejected it requests
    nothing more. *)
Theorem signup_requests nts cognito event :
  acceptable nts event = true ->
  exists field, fields (body event) = Some field /\
    calls (handleSignup nts cognito event)
    = creation field
      :: match adminCreateUser cognito with
         | Served _ =>
             [AdminSetUserPassword (field "email") (field "password") true]
         | Rejected _ => []
         end.
Proof.
  intros (field & Hf & ->)%(signup_valid nts cognito).
  exists field. split; [exact Hf|].
  by destruct (adminCreateUser cognito), (adminSetUserPassword cognito).
Qed.

Lemma signup_failure_status c : statusCode (signup_failure c) <> 200.
Proof. unfold signup_failure. by case_bool_decide. Qed.

(** X7.  [handleSignup] answers 200 exactly when the sign-up passes the
    checks and the identity provider serves both requests. *)
Theorem signup_succeeds nts cognito event :
  status (handleSignup nts cognito event) = Some 200 <->
  acceptable nts event = true /\
  adminCreateUser cognito = Served tt /\ adminSetUserPassword cognito = Served tt.
Proof.
  destruct (acceptable nts event) eqn:Hok.
  - destruct (signup_valid nts cognito event Hok) as (field & Hf & ->).
    destruct (adminCreateUser cognito) as [[]|c],
      (adminSetUserPassword cognito) as [[]|c']; unfold status; cbn [result];
      (split;
       [ intros H; first [done | exfalso; injection H; apply signup_failure_status]
       | by intros (_ & ? & ?) ]).
  - destruct (fields (body event)) as [field|] eqn:Hf.
    + destruct (signup_invalid nts cognito event field Hf Hok) as [text ->].
      split; [discriminate|]. by intros [? _].
    + rewrite (signup_unreadable nts cognito event Hf).
      split; [discriminate|]. by intros [? _].
Qed.

(** X8.  When the identity provider rejects the creation of the user
    or the setting of the password, a sign-up that passed the checks is
    answered 400 [Email already exists.] if the code of the error is
    [UsernameExistsException], and 502 [Signup failed.] otherwise. *)
Theorem signup_rejected nts cognito event c :
  acceptable nts event = true ->
  adminCreateUser cognito = Rejected c \/
  adminCreateUser cognito = Served tt /\ adminSetUserPassword cognito = Rejected c ->
  result (handleSignup nts cognito event) = inl (signup_failure c).
Proof.
  intros (field & Hf & ->)%(signup_valid nts cognito).
  by intros [-> | [-> ->]].
Qed.

(** The sign-in on a body that can be read, by what the identity
    provider answers. *)
Lemma signin_readable cognito event field :
  fields (body event) = Some field ->
  handleSignin cognito event
  = mkRan
      (inl match adminInitiateAuth cognito with
           | Served (Some IdToken) =>
               formatResponse 200 (Object [("idToken", Prim IdToken)])
           | Served None =>
               formatResponse 400 (error_body "Authentication failed. Try again.")
           | Rejected c =>
               formatResponse 400
                 (error_body
                    (if bool_decide (c = Some "NotAuthorizedException")
                     then "Invalid email or password."
                     else "Authentication failed."))
           end)
      [AdminInitiateAuth "ADMIN_USER_PASSWORD_AUTH"
         (field "email") (field "password")].
Proof.
  intros Hf. unfold handleSignin. rewrite parse_fields, Hf, and_then_pure.
  destruct (adminInitiateAuth cognito) as [[IdToken|]|c];
    unfold attempt, and_then, request, pure; cbn [result calls app];
    rewrite ?code_is_decide; reflexivity.
Qed.

Lemma signin_unreadable cognito event :
  fields (body event) = None ->
  handleSignin cognito event
  = mkRan (inl (formatResponse 400 (error_body "Authentication failed."))) [].
Proof. unfold handleSignin. by destruct (body event). Qed.

(** X9.  [handleSignin] checks nothing: when the body can be read it
    makes one request to the identity provider, with the [email] and the
    [password] of the body as they are, and when the body cannot be
    read it makes none. *)
Theorem signin_unchecked cognito event :
  calls (handleSignin cognito event)
  = match fields (body event) with
    | Some field =>
        [AdminInitiateAuth "ADMIN_USER_PASSWORD_AUTH"
           (field "email") (field "password")]
    | None => []
    end.
Proof.
  destruct (fields (body event)) as [field|] eqn:Hf.
  - by rewrite (signin_readable cognito event field Hf).
  - by rewrite (signin_unreadable cognito event Hf).
Qed.

(** X10.  [handleSignin] answers 200 exactly when the body can be read
    and the identity provider serves the request with an authentication
    result; every other sign-in is answered 400. *)
Theorem signin_status cognito event :
  (status (handleSignin cognito event) = Some 200 <->
   is_Some (fields (body event)) /\
   exists IdToken, adminInitiateAuth cognito = Served (Some IdToken)) /\
  (status (handleSignin cognito event) <> Some 200 ->
   status (handleSignin cognito event) = Some 400).
Proof.
  destruct (fields (body event)) as [field|] eqn:Hf.
  - rewrite (signin_readable cognito event field Hf).
    destruct (adminInitiateAuth cognito) as [[IdToken|]|c];
      unfold status; cbn [result formatResponse statusCode].
    + split; [|done]. split; [eauto|done].
    + split; [|done]. split; [done|]. by intros (_ & ? & [=]).
    + split; [|done]. split; [done|]. by intros (_ & ? & [=]).
  - rewrite (signin_unreadable cognito event Hf). unfold status.
    cbn [result formatResponse statusCode].
    split; [|done]. split; [done|]. by intros ([? [=]] & _).
Qed.

(** X11.  The [handleSignin] of
    [task11/app/lambdas/api_handler/index.js] and the [handleSignin] of
    the handler return the same response and make the same requests. *)
Theorem signin_versions_agree cognito event :
  handleSignin_task11 cognito event = handleSignin cognito event.
Proof.
  unfold handleSignin_task11, handleSignin, attempt.
  destruct (result _) as [response|error]; [reflexivity|].
  by destruct (code_is error "NotAuthorizedException").
Qed.

(** ** The router *)

Lemma route_elem {A} key (rs : list (string * A)) h :
  route key rs = Some h -> (key, h) ∈ rs.
Proof.
  induction rs as [|[k h'] rs IH]; cbn [route]; [discriminate|].
  destruct (String.eqb_spec key k) as [->|_].
  - intros [= ->]. apply list_elem_of_here.
  - intros H. apply list_elem_of_further. by apply IH.
Qed.

Lemma route_None {A} key (rs : list (string * A)) :
  key ∉ rs.*1 -> route key rs = None.
Proof.
  induction rs as [|[k h'] rs IH]; cbn [route fmap list_fmap]; [done|].
  intros Hk. destruct (String.eqb_spec key k) as [->|_].
  - destruct Hk. apply list_elem_of_here.
  - apply IH. intros Hin. apply Hk. by apply list_elem_of_further.
Qed.

Lemma formatResponse_well_formed s b :
  s ∈ statuses -> well_formed (formatResponse s b).
Proof. by split. Qed.

Lemma status_listed s : bool_decide (s ∈ statuses) = true -> s ∈ statuses.
Proof. apply bool_decide_eq_true_1. Qed.

Lemma answers_ret s b : bool_decide (s ∈ statuses) = true -> answers (ret (formatResponse s b)).
Proof. intros H db. cbn. by apply formatResponse_well_formed, status_listed. Qed.

Lemma answers_throw e : answers (throw e).
Proof. by intros db. Qed.

Lemma answers_bind {A} (m : Async A) k :
  (forall a, answers (k a)) -> answers (bind m k).
Proof.
  intros Hk db. unfold bind. destruct (outcome (m db)) as [a|e]; [|done].
  cbn [outcome]. apply Hk.
Qed.

Lemma answers_try_catch m h :
  answers m -> (forall e, answers (h e)) -> answers (try_catch m h).
Proof.
  intros Hm Hh db. unfold try_catch. specialize (Hm db).
  destruct (outcome (m db)) as [a|e] eqn:Hout; [by rewrite Hout|].
  cbn [outcome]. apply Hh.
Qed.

Ltac solve_answers :=
  repeat first
    [ apply answers_ret; reflexivity
    | apply answers_throw
    | apply answers_try_catch; [|intros ?]
    | apply answers_bind; intros ?
    | match goal with
      | |- answers (if ?b then _ else _) => destruct b
      | |- answers (match ?x with _ => _ end) => destruct x
      end ].

Lemma handleGetTables_answers inv event : answers (handleGetTables inv event).
Proof. unfold handleGetTables. solve_answers. Qed.

Lemma handleGetTableById_answers inv event :
  answers (handleGetTableById inv event).
Proof. unfold handleGetTableById. solve_answers. Qed.

Lemma handleGetReservations_answers inv event :
  answers (handleGetReservations inv event).
Proof. unfold handleGetReservations. solve_answers. Qed.

Lemma handleCreateTable_answers nts inv event :
  answers (handleCreateTable nts inv event).
Proof. unfold handleCreateTable, JSON_parse, destructure. solve_answers. Qed.

Lemma handleCreateReservation_answers inv event :
  answers (handleCreateReservation inv event).
Proof. unfold handleCreateReservation, JSON_parse, destructure. solve_answers. Qed.

Lemma signup_well_formed nts cognito event :
  exists response,
    result (handleSignup nts cognito event) = inl response /\
    well_formed response.
Proof.
  destruct (acceptable nts event) eqn:Hok.
  - destruct (signup_valid nts cognito event Hok) as (field & _ & ->).
    unfold signup_failure.
    destruct (adminCreateUser cognito) as [[]|c],
      (adminSetUserPassword cognito) as [[]|c'];
      repeat case_bool_decide; eexists; (split; [reflexivity|]);
      by apply formatResponse_well_formed, status_listed.
  - destruct (fields (body event)) as [field|] eqn:Hf.
    + destruct (signup_invalid nts cognito event field Hf Hok) as [text ->].
      eexists; split; [reflexivity|].
      by apply formatResponse_well_formed, status_listed.
    + rewrite (signup_unreadable nts cognito event Hf).
      eexists; split; [reflexivity|].
      by apply formatResponse_well_formed, status_listed.
Qed.

Lemma signin_well_formed cognito event :
  exists response,
    result (handleSignin cognito event) = inl response /\
    well_formed response.
Proof.
  destruct (fields (body event)) as [field|] eqn:Hf.
  - rewrite (signin_readable cognito event field Hf).
    destruct (adminInitiateAuth cognito) as [[IdToken|]|c];
      eexists; (split; [reflexivity|]);
      by apply formatResponse_well_formed, status_listed.
  - rewrite (signin_unreadable cognito event Hf).
    eexists; split; [reflexivity|].
    by apply formatResponse_well_formed, status_listed.
Qed.

Lemma answers_lift r :
  (exists response, result r = inl response /\ well_formed response) ->
  answers (lift r).
Proof. intros (response & Hr & Hw) db. unfold lift. cbn [outcome]. by rewrite Hr. Qed.

Lemma handler_routed nts message_of inv cognito gateway :
  handler nts message_of inv cognito gateway
  = try_catch
      (bind (default notFoundHandler
               (route (routeKey gateway) (routes nts inv cognito))
               (event gateway)) ret)
      (fun error => ret (internal_error (message_of error))).
Proof. reflexivity. Qed.

Lemma routes_keys nts inv cognito : (routes nts inv cognito).*1 = route_keys.
Proof. reflexivity. Qed.

(** The handlers of the routes, and [notFoundHandler]. *)
Lemma routed nts inv cognito key (P : (Event -> Async Response) -> Prop) :
  P (fun event => lift (handleSignup nts cognito event)) ->
  P (fun event => lift (handleSignin cognito event)) ->
  P (handleGetTables inv) -> P (handleCreateTable nts inv) ->
  P (handleGetTableById inv) -> P (handleGetReservations inv) ->
  P (handleCreateReservation inv) -> P notFoundHandler ->
  P (default notFoundHandler (route key (routes nts inv cognito))).
Proof.
  intros. unfold routes. cbn [route].
  repeat match goal with |- context [String.eqb key ?k] => destruct (String.eqb key k) end;
    assumption.
Qed.

Lemma answers_routed nts inv cognito key event :
  answers (default notFoundHandler (route key (routes nts inv cognito)) event).
Proof.
  apply (routed nts inv cognito key (fun h => answers (h event))).
  - apply answers_lift, signup_well_formed.
  - apply answers_lift, signin_well_formed.
  - apply handleGetTables_answers.
  - apply handleCreateTable_answers.
  - apply handleGetTableById_answers.
  - apply handleGetReservations_answers.
  - apply handleCreateReservation_answers.
  - by apply answers_ret.
Qed.

(** What [handler] makes of the run of the handler of the route. *)
Lemma handler_run nts message_of inv cognito gateway db :
  let run := default notFoundHandler
               (route (routeKey gateway) (routes nts inv cognito))
               (event gateway) db in
  handler nts message_of inv cognito gateway db
  = mkCompletion
      (Returned match outcome run with
                | Returned response => response
                | Thrown e => internal_error (message_of e)
                end)
      (database run) (writes run).
Proof.
  intros run. rewrite handler_routed. unfold try_catch, bind. fold run.
  destruct (outcome run) as [response|e]; cbn [outcome database writes ret];
    by rewrite ?app_nil_r.
Qed.

(** X12.  [handler] does not throw: on every event and database it
    returns a response, which has the CORS headers and one of the status
    codes 200, 400, 401, 404, 500 and 502. *)
Theorem handler_answers nts message_of inv cognito gateway db :
  exists response,
    outcome (handler nts message_of inv cognito gateway db) = Returned response /\
    well_formed response.
Proof.
  rewrite handler_run. cbn [outcome]. eexists. split; [reflexivity|].
  pose proof (answers_routed nts inv cognito (routeKey gateway) (event gateway) db) as H.
  destruct (outcome _) as [response|e]; [exact H|].
  by apply formatResponse_well_formed, status_listed.
Qed.

(** X13.  An event whose method and resource are not one of the seven
    routes is answered 404 [Not Found], without a request to the
    database. *)
Theorem unknown_route nts message_of inv cognito gateway db :
  routeKey gateway ∉ route_keys ->
  handler nts message_of inv cognito gateway db
  = mkCompletion (Returned (formatResponse 404 (message "Not Found"))) db [].
Proof.
  intros Hk. rewrite handler_run, route_None by by rewrite routes_keys.
  reflexivity.
Qed.

Lemma protected_route nts inv cognito key :
  key ∈ protected_routes ->
  exists h, route key (routes nts inv cognito) = Some h /\
    forall event db,
      ~ authenticated event ->
      h event db = mkCompletion (Returned Unauthorized) db [].
Proof.
  intros Hk. apply list_elem_of_In in Hk. cbn in Hk.
  assert (Hno : forall event, ~ authenticated event ->
                 negb (truthy (getUsernameFromToken event)) = true).
  { intros event H. unfold authenticated in H.
    by destruct (truthy (getUsernameFromToken event)). }
  destruct Hk as [<-|[<-|[<-|[<-|[<-|[]]]]]];
    (eexists; split; [reflexivity|]); intros event db Hauth;
    [ unfold handleGetTables | unfold handleCreateTable
    | unfold handleGetTableById | unfold handleGetReservations
    | unfold handleCreateReservation ];
    by rewrite (Hno event Hauth).
Qed.

(** X14.  On the five routes that read or write the database, an event
    without a username is answered [Unauthorized], without a request to
    the database. *)
Theorem protected_routes_need_identity nts message_of inv cognito gateway db :
  routeKey gateway ∈ protected_routes -> ~ authenticated (event gateway) ->
  handler nts message_of inv cognito gateway db
  = mkCompletion (Returned Unauthorized) db [].
Proof.
  intros Hk Hauth. rewrite handler_run.
  destruct (protected_route nts inv cognito _ Hk) as (h & -> & Hh).
  cbn [from_option id]. by rewrite (Hh _ db Hauth).
Qed.

Lemma creating_route nts inv cognito key :
  key ∈ creating_routes ->
  exists h, route key (routes nts inv cognito) = Some h /\
    forall event db,
      authenticated event -> fields (body event) = None ->
      h event db = mkCompletion (Thrown (unreadable (body event))) db [].
Proof.
  intros Hk. apply list_elem_of_In in Hk. cbn in Hk.
  destruct Hk as [<-|[<-|[]]];
    (eexists; split; [reflexivity|]); intros event db Hauth Hf;
    [ unfold handleCreateTable | unfold handleCreateReservation ];
    rewrite Hauth; by destruct (body event).
Qed.

(** X15.  [POST /tables] and [POST /reservations] with an identity and
    a body that cannot be read are answered 500 by the [catch] of
    [handler], with the message of what reading the body threw, and
    write nothing. *)
Theorem unreadable_body_is_internal_error nts message_of inv cognito gateway db :
  routeKey gateway ∈ creating_routes -> authenticated (event gateway) ->
  fields (body (event gateway)) = None ->
  handler nts message_of inv cognito gateway db
  = mkCompletion
      (Returned (internal_error (message_of (unreadable (body (event gateway))))))
      db [].
Proof.
  intros Hk Hauth Hf. rewrite handler_run.
  destruct (creating_route nts inv cognito _ Hk) as (h & -> & Hh).
  cbn [from_option id]. by rewrite (Hh _ db Hauth Hf).
Qed.

(** ** What is written *)

Lemma silent_ret {A} (a : A) : silent (ret a).
Proof. by intros db. Qed.

Lemma silent_throw {A} e : silent (@throw A e).
Proof. by intros db. Qed.

Lemma silent_scan inv input : silent (scan inv input).
Proof.
  intros db. unfold scan. destruct (unavailable inv _); [done|].
  by destruct (scan_items input db).
Qed.

Lemma silent_get inv t id : silent (get inv t id).
Proof.
  intros db. unfold get. destruct (unavailable inv _); [done|].
  by destruct (get_item t id db).
Qed.

Lemma silent_lift r : silent (lift r).
Proof. by intros db. Qed.

Lemma silent_bind {A B} (m : Async A) (k : A -> Async B) :
  silent m -> (forall a, silent (k a)) -> silent (bind m k).
Proof.
  intros Hm Hk db. unfold bind. destruct (Hm db) as [Hw Hd].
  destruct (outcome (m db)) as [a|e]; cbn [writes database]; [|done].
  rewrite Hw, Hd. apply Hk.
Qed.

Lemma silent_try_catch {A} (m : Async A) h :
  silent m -> (forall e, silent (h e)) -> silent (try_catch m h).
Proof.
  intros Hm Hh db. unfold try_catch. destruct (Hm db) as [Hw Hd].
  destruct (outcome (m db)) as [a|e]; cbn [writes database]; [done|].
  rewrite Hw, Hd. apply Hh.
Qed.

Ltac solve_silent :=
  repeat first
    [ apply silent_ret | apply silent_throw | apply silent_scan
    | apply silent_get | apply silent_lift
    | apply silent_try_catch; [|intros ?]
    | apply silent_bind; [|intros ?]
    | match goal with
      | |- silent (if ?b then _ else _) => destruct b
      | |- silent (match ?x with _ => _ end) => destruct x
      end ].

Lemma writes_once_silent t {A} (m : Async A) : silent m -> writes_once t m.
Proof. intros Hm db. left. apply Hm. Qed.

Lemma writes_once_put inv t o : writes_once t (put inv t o).
Proof.
  intros db. unfold put. destruct (unavailable inv _); [by left|].
  unfold put_item. destruct (marshal_map o) as [item|]; [|by left].
  cbn [mbind option_bind]. destruct (key_of item) as [key|]; [|by left].
  right. by exists item, key.
Qed.

Lemma writes_once_bind_l t {A B} (m : Async A) (k : A -> Async B) :
  silent m -> (forall a, writes_once t (k a)) -> writes_once t (bind m k).
Proof.
  intros Hm Hk db. unfold bind. destruct (Hm db) as [Hw Hd].
  destruct (outcome (m db)) as [a|e]; cbn [writes database]; [|by left].
  rewrite Hw, Hd. apply Hk.
Qed.

Lemma writes_once_bind_r t {A B} (m : Async A) (k : A -> Async B) :
  writes_once t m -> (forall a, silent (k a)) -> writes_once t (bind m k).
Proof.
  intros Hm Hk db. unfold bind.
  destruct (outcome (m db)) as [a|e]; cbn [writes database].
  - destruct (Hk a (database (m db))) as [-> ->]. rewrite app_nil_r. apply Hm.
  - apply Hm.
Qed.

Lemma writes_once_try_catch t {A} (m : Async A) h :
  writes_once t m -> (forall e, silent (h e)) -> writes_once t (try_catch m h).
Proof.
  intros Hm Hh db. unfold try_catch.
  destruct (outcome (m db)) as [a|e]; cbn [writes database]; [apply Hm|].
  destruct (Hh e (database (m db))) as [-> ->]. rewrite app_nil_r. apply Hm.
Qed.

Lemma handleGetTables_silent inv event : silent (handleGetTables inv event).
Proof. unfold handleGetTables. solve_silent. Qed.

Lemma handleGetTableById_silent inv event :
  silent (handleGetTableById inv event).
Proof. unfold handleGetTableById. solve_silent. Qed.

Lemma handleGetReservations_silent inv event :
  silent (handleGetReservations inv event).
Proof. unfold handleGetReservations. solve_silent. Qed.

Lemma handleCreateTable_writes nts inv event :
  writes_once TABLES_TABLE (handleCreateTable nts inv event).
Proof.
  unfold handleCreateTable.
  destruct (negb _); [apply writes_once_silent; solve_silent|].
  apply writes_once_bind_l; [unfold JSON_parse; solve_silent|intros parsed].
  apply writes_once_bind_l; [unfold destructure; solve_silent|intros table].
  destruct (_ || _); [apply writes_once_silent; solve_silent|].
  apply writes_once_try_catch; [|intros e; solve_silent].
  apply writes_once_bind_r; [apply writes_once_put|intros []; solve_silent].
Qed.

Lemma handleCreateReservation_writes inv event :
  writes_once RESERVATIONS_TABLE (handleCreateReservation inv event).
Proof.
  unfold handleCreateReservation.
  destruct (negb _); [apply writes_once_silent; solve_silent|].
  apply writes_once_bind_l; [unfold JSON_parse; solve_silent|intros parsed].
  apply writes_once_bind_l; [unfold destructure; solve_silent|intros field].
  destruct (_ || _); [apply writes_once_silent; solve_silent|].
  apply writes_once_try_catch; [|intros e; solve_silent].
  apply writes_once_bind_l; [solve_silent|intros [|table tableResult]].
  { apply writes_once_silent; solve_silent. }
  apply writes_once_bind_l; [solve_silent|intros existingReservations].
  destruct (_ <? _)%nat; [apply writes_once_silent; solve_silent|].
  apply writes_once_bind_r; [apply writes_once_put|intros []; solve_silent].
Qed.

(** What the handler of a route writes. *)
Lemma routed_writes nts inv cognito key event :
  match written key with
  | Some t =>
      writes_once t
        (default notFoundHandler (route key (routes nts inv cognito)) event)
  | None =>
      silent (default notFoundHandler (route key (routes nts inv cognito)) event)
  end.
Proof.
  unfold written, routes. cbn [route].
  repeat match goal with
         | |- context [String.eqb key ?k] =>
             destruct (String.eqb_spec key k) as [->|?];
             cbn [String.eqb Ascii.eqb Bool.eqb from_option id]
         end; try congruence; cbn [from_option id];
    first [ apply handleCreateTable_writes | apply handleCreateReservation_writes
          | apply handleGetTables_silent | apply handleGetTableById_silent
          | apply handleGetReservations_silent | apply silent_lift
          | apply silent_ret ].
Qed.

Lemma extends_refl db : extends db db.
Proof. by intros t key. Qed.

Lemma extends_insert t key item db :
  extends db (with_contents t (<[key := item]> (contents t db)) db).
Proof.
  intros t' key' H.
  destruct t, t'; cbn [with_contents contents tables reservations] in *;
    try done; apply lookup_insert_is_Some; destruct (decide (key = key')); auto.
Qed.

(** X16.  An invocation of [handler] writes at most once: [POST
    /tables] to the tables, [POST /reservations] to the reservations,
    and every other event not at all; an invocation that does not write
    leaves the database as it was, and no invocation removes a table or
    a reservation. *)
Theorem handler_writes nts message_of inv cognito gateway :
  match written (routeKey gateway) with
  | Some t => writes_once t (handler nts message_of inv cognito gateway)
  | None => silent (handler nts message_of inv cognito gateway)
  end /\
  forall db,
    extends db (database (handler nts message_of inv cognito gateway db)).
Proof.
  pose proof (routed_writes nts inv cognito (routeKey gateway) (event gateway)) as H.
  destruct (written (routeKey gateway)) as [t|].
  - split.
    + intros db. rewrite handler_run. cbn [writes database]. apply H.
    + intros db. rewrite handler_run. cbn [database].
      destruct (H db) as [[_ ->]|(item & key & _ & ->)];
        [apply extends_refl|apply extends_insert].
  - split.
    + intros db. rewrite handler_run. cbn [writes database]. apply H.
    + intros db. rewrite handler_run. cbn [database].
      destruct (H db) as [_ ->]. apply extends_refl.
Qed.

(** ** Reading tables and reservations *)

Lemma returns_ret {A} (a : A) : returns (ret a).
Proof. intros db. by exists a. Qed.

Lemma returns_try_catch {A} (m : Async A) (a : A) :
  returns (try_catch m (fun _ => ret a)).
Proof.
  intros db. unfold try_catch. destruct (outcome (m db)) as [a'|e] eqn:Hout.
  - exists a'. exact Hout.
  - by exists a.
Qed.

(** X17.  [handleGetTables], [handleGetTableById] and
    [handleGetReservations] do not throw, write nothing and leave the
    database as it was. *)
Theorem reads_are_read_only inv event :
  read_only (handleGetTables inv event) /\
  read_only (handleGetTableById inv event) /\
  read_only (handleGetReservations inv event).
Proof.
  assert (H : forall m : Async Response, silent m -> returns m -> read_only m).
  { intros m Hs Hr db. destruct (Hs db) as [Hw Hd]. by destruct (Hr db) as [a Ha]; eauto. }
  split; [|split]; apply H.
  - apply handleGetTables_silent.
  - unfold handleGetTables. destruct (negb _); [apply returns_ret|apply returns_try_catch].
  - apply handleGetTableById_silent.
  - unfold handleGetTableById. destruct (negb _); [apply returns_ret|apply returns_try_catch].
  - apply handleGetReservations_silent.
  - unfold handleGetReservations. destruct (negb _); [apply returns_ret|apply returns_try_catch].
Qed.

(** X18.  When DynamoDB does not serve the request of
    [handleGetTables], [handleGetTableById] or [handleGetReservations],
    an authenticated request is answered 500 [Internal Server Error]
    and the database is left as it was. *)
Theorem reads_of_an_unavailable_store inv event db :
  authenticated event ->
  (unavailable inv (ScanRequest TABLES_TABLE) = true ->
   handleGetTables inv event db = failed db) /\
  (unavailable inv (GetRequest TABLES_TABLE) = true ->
   handleGetTableById inv event db = failed db) /\
  (unavailable inv (ScanRequest RESERVATIONS_TABLE) = true ->
   handleGetReservations inv event db = failed db).
Proof.
  intros Hauth. repeat split; intros Hdown.
  - unfold handleGetTables. rewrite Hauth. cbn [negb].
    unfold try_catch, bind, scan. cbn [TableName]. by rewrite Hdown.
  - unfold handleGetTableById. rewrite Hauth. cbn [negb].
    unfold try_catch, bind, get. by rewrite Hdown.
  - unfold handleGetReservations. rewrite Hauth. cbn [negb].
    unfold try_catch, bind, scan.
    destruct (truthy _); cbn [TableName]; by rewrite Hdown.
Qed.


(** ** Creating a table *)




(** X20.  For an authenticated request whose body can be read,
    [handleCreateTable] answers 400 [Invalid table data.] and writes
    nothing when the [number] or the [places] of the body is not a
    number or its [isVip] is not a boolean. *)
Theorem invalid_table_rejected nts inv event db field :
  authenticated event -> fields (body event) = Some field ->
  typeof (field "number") <> "number" \/ typeof (field "places") <> "number" \/
  typeof (field "isVip") <> "boolean" ->
  handleCreateTable nts inv event db
  = mkCompletion (Returned InvalidTable) db [].
Proof.
  intros Hauth Hf Htypes. unfold handleCreateTable. rewrite Hauth. cbn [negb].
  assert (Hbad : negb (String.eqb (typeof (field "number")) "number")
                 || negb (String.eqb (typeof (field "places")) "number")
                 || negb (String.eqb (typeof (field "isVip")) "boolean") = true).
  { destruct (String.eqb_spec (typeof (field "number")) "number"),
      (String.eqb_spec (typeof (field "places")) "number"),
      (String.eqb_spec (typeof (field "isVip")) "boolean"); try reflexivity.
    by destruct Htypes as [?|[?|?]]. }
  destruct (body event) as [| |ps|]; try discriminate;
    injection Hf as <-; unfold bind;
    cbn [JSON_parse destructure ret outcome database writes app] in *;
    [by rewrite Hbad|reflexivity].
Qed.


(** ** Listing what was created *)



Lemma object_members ps : forall ms name,
  JSON_stringify (Object ps) = Some (Obj ms) ->
  is_Some (member name ms) -> name ∈ ps.*1.
Proof.
  cbn [JSON_stringify]. induction ps as [|[k e] ps IH]; intros ms name [= <-].
  - by intros [? [=]].
  - cbn [fmap list_fmap fst]. destruct (JSON_stringify e) as [j|].
    + cbn [member]. destruct (String.eqb_spec name k) as [->|_].
      * intros _. apply list_elem_of_here.
      * intros H. apply list_elem_of_further. by apply (IH _ name eq_refl).
    + intros H. apply list_elem_of_further. by apply (IH _ name eq_refl).
Qed.

(** X23.  An entry in the listing of reservations has no member other
    than [tableNumber], [clientName], [phoneNumber], [date],
    [slotTimeStart] and [slotTimeEnd], and the document of a table none
    other than [id], [number], [places], [isVip] and [minOrder]. *)
Theorem views_members item name document :
  (JSON_stringify (reservation_view item) = Some document ->
   is_Some (json_member name document) -> name ∈ reservation_members) /\
  (JSON_stringify (table_view item) = Some document ->
   is_Some (json_member name document) -> name ∈ table_members).
Proof.
  split; intros Hdoc Hm; destruct document as [a|l|ms];
    try (by destruct Hm as [? [=]]).
  - exact (object_members _ ms name Hdoc Hm).
  - exact (object_members _ ms name Hdoc Hm).
Qed.

(** ** The theorems on a visitor who signs up *)

(** Twelve characters without a special one are a password. *)
Lemma password_without_special_character_witness :
  validatePassword written_number (JStr "Abcdefghijk1") = true.
Proof.
  apply password_without_special_character;
    [vm_compute; lia | reflexivity | reflexivity | reflexivity].
Defined.

(** An address with two dots in a row is accepted. *)
Lemma email_accepted_witness :
  validateEmail written_number (JStr "ada..l@example..org") = true.
Proof.
  apply email_accepted.
  exists (list_ascii_of_string "ada..l"), (list_ascii_of_string "example."),
    (list_ascii_of_string "org").
  repeat split; try reflexivity; try discriminate. vm_compute. lia.
Defined.

Lemma email_one_at_sign_witness :
  occurrences "@" (list_ascii_of_string "ada@example.com") = 1%nat /\
  occurrences " " (list_ascii_of_string "ada@example.com") = 0%nat.
Proof. apply (email_one_at_sign written_number). reflexivity. Defined.

Lemma signup_acceptable :
  acceptable written_number (signup "ada@example.com" "Abcdefghijk1") = true.
Proof.
  unfold acceptable, signup, signup_body. cbn [body fields]. unfold property.
  map_lookups. reflexivity.
Qed.

Lemma signup_unacceptable :
  acceptable written_number (signup "ada.example.com" "Abcdefghijk1") = false.
Proof.
  unfold acceptable, signup, signup_body. cbn [body fields]. unfold property.
  map_lookups. reflexivity.
Qed.

(** A sign-up with an address without [@] does not reach the identity
    provider. *)
Lemma signup_checks_first_witness :
  calls (handleSignup written_number serving
           (signup "ada.example.com" "Abcdefghijk1")) = [] /\
  status (handleSignup written_number serving
            (signup "ada.example.com" "Abcdefghijk1")) = Some 400.
Proof. apply signup_checks_first. exact signup_unacceptable. Defined.

(** A sign-up that passes the checks is followed by the creation of the
    user and the setting of the password. *)
Lemma signup_requests_witness :
  exists field,
    fields (body (signup "ada@example.com" "Abcdefghijk1")) = Some field /\
    calls (handleSignup written_number serving
             (signup "ada@example.com" "Abcdefghijk1"))
    = [ creation field;
        AdminSetUserPassword (field "email") (field "password") true ].
Proof.
  exact (signup_requests written_number serving
           (signup "ada@example.com" "Abcdefghijk1") signup_acceptable).
Defined.

Lemma signup_succeeds_witness :
  status (handleSignup written_number serving
            (signup "ada@example.com" "Abcdefghijk1")) = Some 200.
Proof.
  apply signup_succeeds. split; [exact signup_acceptable|]. by split.
Defined.

(** A sign-up with an address that is taken. *)
Lemma signup_rejected_witness :
  result (handleSignup written_number knowing
            (signup "ada@example.com" "Abcdefghijk1"))
  = inl (formatResponse 400 (error_body "Email already exists.")).
Proof.
  apply (signup_rejected written_number knowing
           (signup "ada@example.com" "Abcdefghijk1")
           (Some "UsernameExistsException"));
    [exact signup_acceptable | by left].
Defined.

Lemma signin_status_witness :
  status (handleSignin serving signin) = Some 200.
Proof.
  apply signin_status. split; [by eexists|]. by eexists.
Defined.

(** The preflight request of a browser is answered 404. *)
Lemma unknown_route_witness :
  handler written_number message_of first_invocation serving preflight one_table
  = mkCompletion (Returned (formatResponse 404 (message "Not Found")))
      one_table [].
Proof.
  apply unknown_route. apply (bool_decide_unpack _). vm_compute. exact I.
Defined.

Lemma protected_routes_need_identity_witness :
  handler written_number message_of first_invocation serving anonymous_listing
    one_table
  = mkCompletion (Returned Unauthorized) one_table [].
Proof.
  apply protected_routes_need_identity.
  - apply (bool_decide_unpack _). vm_compute. exact I.
  - intros H. vm_compute in H. discriminate H.
Defined.

(** A booking without a body is answered 500, with the message of the
    TypeError. *)
Lemma unreadable_body_is_internal_error_witness :
  handler written_number message_of first_invocation serving empty_booking
    one_table
  = mkCompletion
      (Returned (internal_error "Cannot destructure property of null"))
      one_table [].
Proof.
  apply (unreadable_body_is_internal_error written_number message_of
           first_invocation serving empty_booking one_table).
  - apply (bool_decide_unpack _). vm_compute. exact I.
  - reflexivity.
  - reflexivity.
Defined.

Lemma reads_of_an_unavailable_store_witness :
  handleGetTables outage get_T1 one_table = failed one_table /\
  handleGetTableById outage get_T1 one_table = failed one_table /\
  handleGetReservations outage get_T1 one_table = failed one_table.
Proof.
  destruct (reads_of_an_unavailable_store outage get_T1 one_table eq_refl)
    as (Htables & Htable & Hreservations).
  split; [|split]; [apply Htables|apply Htable|apply Hreservations];
    reflexivity.
Defined.

(** A table whose number is sent as a text is not stored. *)
Lemma invalid_table_rejected_witness :
  handleCreateTable written_number first_invocation quoted_table one_table
  = mkCompletion (Returned InvalidTable) one_table [].
Proof.
  apply (invalid_table_rejected written_number first_invocation quoted_table
           one_table (property (<[ "number" := Str "7" ]> new_table_body)));
    [reflexivity | reflexivity |].
  left. unfold property. map_lookups. discriminate.
Defined.





(** The entry of a reservation has a [date], and it is one of the six
    members. *)
Lemma views_members_witness :
  "date" ∈ reservation_members.
Proof.
  apply (views_members (reserved "10:00" "11:00") "date"
           (projection (reserved "10:00" "11:00"))).
  - apply reservation_view_json.
  - exists (Leaf (Str "2024-06-01")).
    apply (member_omap (reserved "10:00" "11:00") "date" "date"
             [ ("tableNumber", "tableNumber"); ("clientName", "clientName");
               ("phoneNumber", "phoneNumber") ]
             [ ("slotTimeStart", "time"); ("slotTimeEnd", "slotTimeEnd") ]);
      repeat constructor.
Defined.
